(** * BrickBridge: the NXT session engine, embedded and verified

    A shallow embedding of the [Nxt] class (the protocol engine of the
    BrickBridge library) and of the USB transport it drives.

    - A [Uint8Array] is a list of byte values; an indexed read [data[k]]
      is a list lookup, [None] standing for JavaScript's [undefined].
    - A JavaScript string is the list of its UTF-16 code units.
    - An [async] method is a state-passing function over the [Nxt] object.
      Awaiting it either resolves ([Ret]), rejects ([Throw]) or never
      settles ([Pending]: the device does not answer).
    - The USB device is a log of the buffers handed to [transferOut] and a
      queue of the answers [transferIn] is going to deliver. *)

From Stdlib Require Import ZArith String Ascii Lia.
From stdpp Require Import base tactics option list numbers.

Local Open Scope Z_scope.

(** ** JavaScript values *)

Definition Uint8Array := list Z.
Definition JsString := list Z.

(** A string literal as its code units. *)
Definition js (s : string) : JsString :=
  (fun c => Z.of_N (N_of_ascii c)) <$> list_ascii_of_string s.

(** [ToUint8]: what storing a number into a [Uint8Array] keeps. *)
Definition toUint8 (z : Z) : Z := z mod 256.

(** An array element that may be [undefined], stored into a [Uint8Array]. *)
Definition toUint8V (v : option Z) : Z :=
  match v with Some z => toUint8 z | None => 0 end.

(** [ToInt32], applied to the operands and the result of [|], [&], [<<], [>>]. *)
Definition toInt32 (z : Z) : Z := (z + 2 ^ 31) mod 2 ^ 32 - 2 ^ 31.

(** [ToInt32] of an array element: [undefined] becomes [NaN], then 0. *)
Definition toInt32V (v : option Z) : Z :=
  match v with Some z => toInt32 z | None => 0 end.

Definition js_or (a b : Z) : Z := toInt32 (Z.lor (toInt32 a) (toInt32 b)).
Definition js_and (a b : Z) : Z := toInt32 (Z.land (toInt32 a) (toInt32 b)).
Definition js_shl (a n : Z) : Z := toInt32 (Z.shiftl (toInt32 a) (n mod 32)).
Definition js_shr (a n : Z) : Z := toInt32 (Z.shiftr (toInt32 a) (n mod 32)).

(** [v !== 0] on an array element. *)
Definition strictNeq0 (v : option Z) : bool :=
  match v with Some 0 => false | _ => true end.

(** [v != n] for a number [n]: [undefined] is loosely different from any number. *)
Definition looseNeq (v : option Z) (n : Z) : bool :=
  match v with Some z => negb (z =? n) | None => true end.

(** [data.slice(a, b)] for [0 <= a <= b]. *)
Definition slice {A} (data : list A) (a b : nat) : list A :=
  take (b - a) (drop a data).

(** [String.fromCharCode(...bytes).replace(/\u0000/g, "")]. *)
Definition stripNul (bytes : Uint8Array) : JsString :=
  filter (fun c => c ≠ 0) bytes.

(** [a | (b << 8) | (c << 16) | (d << 24)] over [data[k] .. data[k+3]]. *)
Definition le32 (data : Uint8Array) (k : nat) : Z :=
  js_or (js_or (js_or (toInt32V (data !! k))
                      (js_shl (toInt32V (data !! (k + 1)%nat)) 8))
               (js_shl (toInt32V (data !! (k + 2)%nat)) 16))
        (js_shl (toInt32V (data !! (k + 3)%nat)) 24).

(** ** Errors

    One constructor per [throw] site of the library, plus the two errors the
    runtime raises on its own. [statusCode] is the property the library
    attaches to some of its errors. *)

Inductive Error :=
  | NoDeviceConnected                     (* "No device connected" *)
  | NoDataReceived                        (* "No data received" *)
  | TransferFailed                        (* transferIn rejected *)
  | NameTooLong                           (* "Name must be 15 characters or less" *)
  | SetNameFailed (code : option Z)       (* "Failed to set brick name, error code .." *)
  | FilesizeTooLong                       (* "Filesize too long" *)
  | OpenLinearWriteFailed (code : option Z)
  | DataTooLong                           (* "Data too long" *)
  | WriteFailed (code : option Z)         (* "Failed to write data, error code .." *)
  | NoFileSelected                        (* "No file selected" *)
  | CannotVerifyFirmware                  (* "Cannot verify firmware" *)
  | UploadFailed (code : option Z)        (* "Failed to upload file, error code .." *)
  | InvalidExtension                      (* "Invalid file format; file doesn't end with .rxe" *)
  | InvalidFormat                         (* "Invalid file format" *)
  | StopFailed (code : option Z)          (* carries statusCode *)
  | CloseFailed (code : option Z)         (* "Failed to close handle, error code .." *)
  | DeleteFailed (code : option Z)        (* carries statusCode *)
  | JsTypeError                           (* property read of undefined *)
  | JsRangeError.                         (* TypedArray.set: offset is out of bounds *)

Definition statusCode (e : Error) : option Z :=
  match e with
  | StopFailed code | DeleteFailed code => code
  | _ => None
  end.

(** ** The transport and the session object *)

Inductive Reply :=
  | Data (bytes : Uint8Array)   (* transferIn resolves with these bytes *)
  | NoData                      (* transferIn resolves without data *)
  | LinkError.                  (* transferIn rejects *)

(** [NxtUsbCommunication]: [device] tells whether [this.device] is set;
    [transferred] lists the buffers given to [transferOut], oldest first;
    [incoming] is what the following [transferIn] calls deliver. *)
Record NxtUsbCommunication := mkUsb {
  device : bool;
  transferred : list Uint8Array;
  incoming : list Reply
}.

Record Nxt := mkNxt { connectedDevice : option NxtUsbCommunication }.

Inductive Outcome (A : Type) :=
  | Ret (a : A)
  | Throw (e : Error)
  | Pending.
Arguments Ret {A} a.
Arguments Throw {A} e.
Arguments Pending {A}.

Definition M (A : Type) : Type := Nxt -> Outcome A * Nxt.

Definition ret {A} (a : A) : M A := fun s => (Ret a, s).
Definition throw {A} (e : Error) : M A := fun s => (Throw e, s).

Definition bind {A B} (m : M A) (k : A -> M B) : M B :=
  fun s =>
    match m s with
    | (Ret a, s') => k a s'
    | (Throw e, s') => (Throw e, s')
    | (Pending, s') => (Pending, s')
    end.

(** [try { m } catch (error) { h error }]: a call that never settles is not caught. *)
Definition tryCatch {A} (m : M A) (h : Error -> M A) : M A :=
  fun s =>
    match m s with
    | (Throw e, s') => h e s'
    | r => r
    end.

Notation "x <- m ;; k" := (bind m (fun x => k))
  (at level 100, m at next level, right associativity).
Notation "m ;;; k" := (bind m (fun _ => k))
  (at level 100, right associativity).

(** The buffers handed to the device so far. *)
Definition sentLog (nxt : Nxt) : list Uint8Array :=
  match connectedDevice nxt with
  | Some usb => transferred usb
  | None => []
  end.

(** What the device is still going to answer. *)
Definition replies (nxt : Nxt) : list Reply :=
  match connectedDevice nxt with
  | Some usb => incoming usb
  | None => []
  end.

(** [if (!this.connectedDevice) throw new Error("No device connected")]. *)
Definition requireDevice : M unit :=
  fun nxt =>
    match connectedDevice nxt with
    | Some _ => (Ret tt, nxt)
    | None => (Throw NoDeviceConnected, nxt)
    end.

(** [NxtUsbCommunication.sendCommand]. Calling it on a missing
    [connectedDevice] is a property read of undefined. *)
Definition sendCommand (command : Uint8Array) : M unit :=
  fun nxt =>
    match connectedDevice nxt with
    | None => (Throw JsTypeError, nxt)
    | Some usb =>
        if device usb
        then (Ret tt, mkNxt (Some (mkUsb true (transferred usb ++ [command]) (incoming usb))))
        else (Throw NoDeviceConnected, nxt)
    end.

(** [NxtUsbCommunication.receiveData]. *)
Definition receiveData : M Uint8Array :=
  fun nxt =>
    match connectedDevice nxt with
    | None => (Throw JsTypeError, nxt)
    | Some usb =>
        if device usb
        then match incoming usb with
             | [] => (Pending, nxt)
             | r :: rest =>
                 let nxt' := mkNxt (Some (mkUsb true (transferred usb) rest)) in
                 match r with
                 | Data bytes => (Ret bytes, nxt')
                 | NoData => (Throw NoDataReceived, nxt')
                 | LinkError => (Throw TransferFailed, nxt')
                 end
             end
        else (Throw NoDeviceConnected, nxt)
    end.

(** [const a = new Uint8Array(width); a.set(str.split("").map(c => c.charCodeAt(0)))]:
    the code units are stored modulo 256 into a zeroed array; a source longer
    than the array makes [set] raise a RangeError. *)
Definition paddedName (width : nat) (str : JsString) : M Uint8Array :=
  if (width <? length str)%nat
  then throw JsRangeError
  else ret ((toUint8 <$> str) ++ replicate (width - length str) 0).

(** ** The [Nxt] class *)

Record FirmwareVersion := mkFirmwareVersion {
  minorProtocol : option Z;
  majorProtocol : option Z;
  minorFirmware : option Z;
  majorFirmware : option Z
}.

Definition getFirmwareVersion : M FirmwareVersion :=
  requireDevice ;;;
  sendCommand [0x01; 0x88] ;;;
  data <- receiveData ;;
  ret {| minorProtocol := data !! 3%nat;
         majorProtocol := data !! 4%nat;
         minorFirmware := data !! 5%nat;
         majorFirmware := data !! 6%nat |}.

Definition checkConnection : M bool :=
  tryCatch
    (requireDevice ;;;
     getFirmwareVersion ;;;
     ret true)
    (fun _ => ret false).

Record DeviceInfo := mkDeviceInfo {
  nxtName : JsString;
  btAddress : Uint8Array;
  btSignalStrength : Z;
  freeUserFlash : Z
}.

Definition getDeviceInfo : M DeviceInfo :=
  requireDevice ;;;
  sendCommand [0x01; 0x9b] ;;;
  data <- receiveData ;;
  ret {| nxtName := stripNul (slice data 3 18);
         btAddress := slice data 18 24;
         btSignalStrength := le32 data 25;
         freeUserFlash := le32 data 29 |}.

Definition setBrickName (name : JsString) : M unit :=
  requireDevice ;;;
  ok <- checkConnection ;;
  if negb ok then throw NoDeviceConnected else
  if (15 <? length name)%nat then throw NameTooLong else
  nameArray <- paddedName 15 name ;;
  sendCommand ([0x01; 0x98] ++ nameArray) ;;;
  data <- receiveData ;;
  if strictNeq0 (data !! 2%nat) then throw (SetNameFailed (data !! 2%nat))
  else ret tt.

(** [_openLinearWrite]: resolves with the handle byte [data[3]]. *)
Definition _openLinearWrite (name : JsString) (size : Z) : M (option Z) :=
  if (20 <? length name)%nat then throw FilesizeTooLong else
  nameArray <- paddedName 20 name ;;
  let sizeArray :=
    toUint8 <$> [ js_and size 0xff;
                  js_and (js_shr size 8) 0xff;
                  js_and (js_shr size 16) 0xff;
                  js_and (js_shr size 24) 0xff ] in
  sendCommand ([0x01; 0x89] ++ nameArray ++ sizeArray) ;;;
  data <- receiveData ;;
  if strictNeq0 (data !! 2%nat) then throw (OpenLinearWriteFailed (data !! 2%nat))
  else ret (data !! 3%nat).

(** [_write]: resolves with the response when one was required, with
    [undefined] ([None]) otherwise. *)
Definition _write (handle : option Z) (data : Uint8Array) (requireResponse : bool)
  : M (option Uint8Array) :=
  if (64 - 3 <? length data)%nat then throw DataTooLong else
  sendCommand ([if requireResponse then 0x01 else 0x81; 0x83; toUint8V handle] ++ data) ;;;
  if requireResponse then
    response <- receiveData ;;
    if strictNeq0 (response !! 2%nat) then throw (WriteFailed (response !! 2%nat))
    else ret (Some response)
  else ret None.

Definition stopProgram : M unit :=
  requireDevice ;;;
  ok <- checkConnection ;;
  if negb ok then throw NoDeviceConnected else
  sendCommand [0x00; 0x01] ;;;
  data <- receiveData ;;
  let status := data !! 2%nat in
  if strictNeq0 status then throw (StopFailed status) else ret tt.

Definition deleteFile (fileName : JsString) : M unit :=
  requireDevice ;;;
  ok <- checkConnection ;;
  if negb ok then throw NoDeviceConnected else
  fileNameArray <- paddedName 20 fileName ;;
  sendCommand ([0x01; 0x85] ++ fileNameArray) ;;;
  data <- receiveData ;;
  if strictNeq0 (data !! 2%nat) then throw (DeleteFailed (data !! 2%nat))
  else ret tt.

(** A browser [File]: its name and its bytes. *)
Module File.
Record t := mk { name : JsString; content : Uint8Array }.
End File.

Definition packetChunkSize : nat := 64.

(** The write loop of [uploadFile]:
    [for (let i = 0; i < data.length; i += packetChunkSize - 3)].
    [i] grows at every turn, so [length data] turns are always enough
    (see [writeLoop_fuel]); the turn counter only makes the recursion
    structural. *)
Fixpoint writeLoop (turns : nat) (handle : option Z) (data : Uint8Array)
    (i : nat) (response : option Uint8Array) : M (option Uint8Array) :=
  if (i <? length data)%nat then
    match turns with
    | O => fun nxt => (Pending, nxt)
    | S turns' =>
        let chunk := slice data i (i + packetChunkSize - 3) in
        let isLastChunk := (length data <=? i + packetChunkSize - 3)%nat in
        response' <- _write handle chunk isLastChunk ;;
        writeLoop turns' handle data (i + packetChunkSize - 3) response'
    end
  else ret response.

(** The chunks the loop cuts, each with its [isLastChunk] flag, in order. *)
Fixpoint chunksFrom (turns : nat) (data : Uint8Array) (i : nat)
  : list (Uint8Array * bool) :=
  if (i <? length data)%nat then
    match turns with
    | O => []
    | S turns' =>
        let chunk := slice data i (i + packetChunkSize - 3) in
        let isLastChunk := (length data <=? i + packetChunkSize - 3)%nat in
        (chunk, isLastChunk) :: chunksFrom turns' data (i + packetChunkSize - 3)
    end
  else [].

Definition uploadChunks (data : Uint8Array) : list (Uint8Array * bool) :=
  chunksFrom (length data) data 0.

(** [uploadFile]. The [console.log] of the caught status code is not modelled. *)
Definition uploadFile (file : option File.t) (stop : bool) : M unit :=
  requireDevice ;;;
  ok <- checkConnection ;;
  if negb ok then throw NoDeviceConnected else
  match file with
  | None => throw NoFileSelected
  | Some file =>
      let data := File.content file in
      firmwareVersion <- getFirmwareVersion ;;
      if looseNeq (majorFirmware firmwareVersion) 1 then throw CannotVerifyFirmware else
      (if stop then
         tryCatch stopProgram
           (fun error => if looseNeq (statusCode error) 236 then throw error else ret tt)
       else ret tt) ;;;
      tryCatch (deleteFile (File.name file))
        (fun error => if looseNeq (statusCode error) 135 then throw error else ret tt) ;;;
      handle <- _openLinearWrite (js "Untitled1.rxe") 244 ;;
      response <- writeLoop (length data) handle data 0 None ;;
      match response with
      | None => throw JsTypeError
      | Some response =>
          if strictNeq0 (response !! 2%nat) then throw (UploadFailed (response !! 2%nat))
          else sendCommand [0x01; 0x84; toUint8V handle]
      end
  end.

(** [name.toLowerCase()] on the ASCII letters. No other code unit lowers to
    one of [. r x e], and lowering a unit never changes the units after it,
    so the suffix test below answers as the full Unicode mapping does. *)
Definition toLowerCase (s : JsString) : JsString :=
  (fun c => if (65 <=? c) && (c <=? 90) then c + 32 else c) <$> s.

Definition endsWith (s suffix : JsString) : bool :=
  (length suffix <=? length s)%nat
  && bool_decide (drop (length s - length suffix) s = suffix).

(** [array.every((value, index) => p value index)], from index [i] on. *)
Fixpoint every (p : Z -> nat -> bool) (i : nat) (array : list Z) : bool :=
  match array with
  | [] => true
  | value :: rest => p value i && every p (S i) rest
  end.

Definition expectedHeader : Uint8Array :=
  [0x4d; 0x69; 0x6e; 0x64; 0x73; 0x74; 0x6f; 0x72; 0x6d; 0x73; 0x4e; 0x58; 0x54].

Definition uploadProgram (file : option File.t) : M unit :=
  match file with
  | None => throw NoFileSelected
  | Some f =>
      if negb (endsWith (toLowerCase (File.name f)) (js ".rxe")) then throw InvalidExtension else
      let headerLength := length expectedHeader in
      let header := slice (File.content f) 0 headerLength in
      if negb (every (fun value index => bool_decide (expectedHeader !! index = Some value)) 0 header)
      then throw InvalidFormat else
      tryCatch (uploadFile file true) (fun error => throw error)
  end.

Module FindPacket.
Record t := mk { handle : option Z; name : JsString; fileSize : Z }.
End FindPacket.

Definition _handleFindReturnPacket (data : Uint8Array) : FindPacket.t :=
  {| FindPacket.handle := data !! 3%nat;
     FindPacket.name := stripNul (slice data 4 23);
     FindPacket.fileSize := le32 data 24 |}.

Module FileInfo.
Record t := mk { name : JsString; size : Z }.
End FileInfo.

(** [{ name: fileInfo.name, size: fileInfo.fileSize }]. *)
Definition fileEntry (fileInfo : FindPacket.t) : FileInfo.t :=
  {| FileInfo.name := FindPacket.name fileInfo;
     FileInfo.size := FindPacket.fileSize fileInfo |}.

(** The [while (!lastFile)] loop of [listFiles]. Every turn takes one answer
    off the device's queue, so one turn more than the queue is long is always
    enough (see [findNextLoop_fuel]). *)
Fixpoint findNextLoop (turns : nat) (handle : option Z) (files : list FileInfo.t)
  : M (list FileInfo.t) :=
  match turns with
  | O => fun nxt => (Pending, nxt)
  | S turns' =>
      sendCommand [0x01; 0x87; toUint8V handle] ;;;
      data <- receiveData ;;
      if negb (strictNeq0 (data !! 2%nat)) then
        let fileInfo := _handleFindReturnPacket data in
        findNextLoop turns' handle (files ++ [fileEntry fileInfo])
      else ret files
  end.

(** The search pattern [*.*], written out in the source as 20 bytes:
    the three characters and 17 NULs. *)
Definition wildcard : Uint8Array :=
  [0x2a; 0x2e; 0x2a] ++ replicate 17 0x00.

Definition listFiles : M (list FileInfo.t) :=
  requireDevice ;;;
  ok <- checkConnection ;;
  if negb ok then throw NoDeviceConnected else
  let fileName := wildcard in
  sendCommand ([0x01; 0x86] ++ fileName) ;;;
  data <- receiveData ;;
  let fileInfo := _handleFindReturnPacket data in
  let handle := FindPacket.handle fileInfo in
  let files := [fileEntry fileInfo] in
  files <- (fun nxt => findNextLoop (S (length (replies nxt))) handle files nxt) ;;
  sendCommand [0x01; 0x84; toUint8V handle] ;;;
  data <- receiveData ;;
  if strictNeq0 (data !! 2%nat) then throw (CloseFailed (data !! 2%nat))
  else ret files.

(** ** Vocabulary of the statements

    A connected session, the command buffers by name, the phases of
    [uploadFile], and the concrete answers the examples run on. *)

Definition connected (sent : list Uint8Array) (answers : list Reply) : Nxt :=
  mkNxt (Some (mkUsb true sent answers)).

Definition probe : Uint8Array := [0x01; 0x88].

Definition stopCmd : Uint8Array := [0x00; 0x01].

Definition paddedBytes (width : nat) (str : JsString) : Uint8Array :=
  (toUint8 <$> str) ++ replicate (width - length str) 0.

Definition deleteCmd (fileName : JsString) : Uint8Array :=
  [0x01; 0x85] ++ paddedBytes 20 fileName.

(** Open-linear-write for ["Untitled1.rxe"] with declared size 244:
    the name, seven NULs, and 244 as four little-endian bytes. *)
Definition fixedOpenCmd : Uint8Array :=
  [0x01; 0x89;
   85; 110; 116; 105; 116; 108; 101; 100; 49; 46; 114; 120; 101;
   0; 0; 0; 0; 0; 0; 0;
   244; 0; 0; 0].

Definition writeCmd (handle : option Z) (chunk : Uint8Array * bool) : Uint8Array :=
  [if chunk.2 then 0x01 else 0x81; 0x83; toUint8V handle] ++ chunk.1.

Definition findNextCmd (handle : option Z) : Uint8Array := [0x01; 0x87; toUint8V handle].

Definition closeCmd (handle : option Z) : Uint8Array := [0x01; 0x84; toUint8V handle].

(** A close-handle command: system command class 0x01, opcode 0x84. *)
Definition isCloseCmd (command : Uint8Array) : bool :=
  bool_decide (command !! 0%nat = Some 0x01 /\ command !! 1%nat = Some 0x84).

Definition decodeEntry (data : Uint8Array) : FileInfo.t :=
  fileEntry (_handleFindReturnPacket data).

(** The [isLastChunk] flags: false on every chunk but the last one cut. *)
Definition lastOnly (n : nat) : list bool :=
  match n with
  | O => []
  | S n' => replicate n' false ++ [true]
  end.

(** The [catch] blocks of [uploadFile]: rethrow unless [error.statusCode] is [code]. *)
Abbreviation absorb code :=
  (fun error => if looseNeq (statusCode error) code then throw error else ret tt).

(** Names for the later phases of [uploadFile], as its body has them. *)
Definition finishUpload (handle : option Z) (response : option Uint8Array) : M unit :=
  match response with
  | None => throw JsTypeError
  | Some response =>
      if strictNeq0 (response !! 2%nat) then throw (UploadFailed (response !! 2%nat))
      else sendCommand [0x01; 0x84; toUint8V handle]
  end.

Definition transfer (handle : option Z) (data : Uint8Array) : M unit :=
  response <- writeLoop (length data) handle data 0 None ;;
  finishUpload handle response.

Definition openAndTransfer (data : Uint8Array) : M unit :=
  handle <- _openLinearWrite (js "Untitled1.rxe") 244 ;;
  transfer handle data.

Definition deleteAndAfter (file : File.t) : M unit :=
  tryCatch (deleteFile (File.name file)) (absorb 135) ;;;
  openAndTransfer (File.content file).

(** What the stop-program step consumes and hands over, when asked for. *)
Definition stopAnswers (stop : bool) (probeR stopR : Uint8Array) : list Reply :=
  if stop then [Data probeR; Data stopR] else [].

Definition stopCmds (stop : bool) : list Uint8Array :=
  if stop then [probe; stopCmd] else [].

Definition matchesHeader (value : Z) (index : nat) : bool :=
  bool_decide (expectedHeader !! index = Some value).

Definition grows {A} (m : M A) : Prop :=
  forall nxt, exists more, sentLog (snd (m nxt)) = sentLog nxt ++ more.

Definition failedFirmwareReply : Uint8Array :=
  [0x02; 0x88; 0xDD; 0x04; 0x01; 0x1F; 0x01] ++ replicate 57 0.

Definition failedDeviceInfoReply : Uint8Array :=
  [0x02; 0x9B; 0xDD] ++ js "Robot" ++ replicate 10 0
  ++ [0x00; 0x16; 0x53; 0xAA; 0xBB; 0xCC] ++ [0x00]
  ++ [0x0A; 0x00; 0x00; 0x00] ++ [0x00; 0x40; 0x00; 0x00] ++ replicate 31 0.

Definition findFirstFailed : Uint8Array :=
  [0x02; 0x86; 0x87; 0x00] ++ js "ghost.rxe" ++ replicate 11 0 ++ [0x2A; 0x00; 0x00; 0x00].

Definition findAnswer20 : Uint8Array :=
  [0x02; 0x86; 0x00; 0x05] ++ js "ABCDEFGHIJKLMNOP.rxe" ++ [0x10; 0x27; 0x00; 0x00].

(** ** Vocabulary of the further properties *)

(** An answer that is not data: [transferIn] resolved empty, or rejected. *)
Definition noAnswer (r : Reply) : bool :=
  match r with Data _ => false | NoData | LinkError => true end.

(** An operation behind the connection gate: without a transport, or with a
    transport that has no device, it throws "No device connected" and leaves
    the session as it was; when the probe of its connection check gets no
    data back, it throws the same error, and the probe is all it sent. *)
Definition gated {A} (op : M A) : Prop :=
  (forall nxt, connectedDevice nxt = None -> op nxt = (Throw NoDeviceConnected, nxt))
  /\ (forall sent answers,
        op (mkNxt (Some (mkUsb false sent answers)))
        = (Throw NoDeviceConnected, mkNxt (Some (mkUsb false sent answers))))
  /\ (forall sent r answers, noAnswer r = true ->
        op (connected sent (r :: answers))
        = (Throw NoDeviceConnected, connected (sent ++ [probe]) answers)).

Definition renameCmd (name : JsString) : Uint8Array :=
  [0x01; 0x98] ++ paddedBytes 15 name.

(** The four size bytes of [_openLinearWrite], least significant first. *)
Definition sizeBytes (size : Z) : Uint8Array :=
  toUint8 <$> [ js_and size 0xff;
                js_and (js_shr size 8) 0xff;
                js_and (js_shr size 16) 0xff;
                js_and (js_shr size 24) 0xff ].

Definition openCmd (name : JsString) (size : Z) : Uint8Array :=
  [0x01; 0x89] ++ paddedBytes 20 name ++ sizeBytes size.

(** A code unit that a one-byte field keeps as it is and that NUL stripping
    leaves in place. *)
Definition latin1 (c : Z) : Prop := 0 < c < 256.

(** Four bytes, least significant first, read as a signed 32-bit number. *)
Definition signed32 (bytes : list Z) : Z :=
  match bytes with
  | [b0; b1; b2; b3] =>
      let v := b0 + b1 * 2 ^ 8 + b2 * 2 ^ 16 + b3 * 2 ^ 24 in
      if b3 <? 128 then v else v - 2 ^ 32
  | _ => 0
  end.

(** An operation that never resolves: it throws or stays pending. *)
Definition neverResolves {A} (m : M A) : Prop :=
  forall nxt a nxt', m nxt <> (Ret a, nxt').

(** What the transport and the runtime throw on their own. *)
Definition wireError (e : Error) : Prop :=
  match e with
  | NoDeviceConnected | NoDataReceived | TransferFailed | JsTypeError | JsRangeError => True
  | _ => False
  end.

(** The errors [uploadFile] can end in. A status error quotes a status other
    than 0, and other than the one its step absorbs. *)
Definition uploadError (e : Error) : Prop :=
  match e with
  | NoDeviceConnected | NoDataReceived | TransferFailed | JsTypeError | JsRangeError => True
  | NoFileSelected | CannotVerifyFirmware => True
  | StopFailed code => code <> Some 0 /\ code <> Some 236
  | DeleteFailed code => code <> Some 0 /\ code <> Some 135
  | OpenLinearWriteFailed code | WriteFailed code => code <> Some 0
  | NameTooLong | SetNameFailed _ | FilesizeTooLong | DataTooLong | UploadFailed _
  | InvalidExtension | InvalidFormat | CloseFailed _ => False
  end.

Definition throwsOnly {A} (P : Error -> Prop) (m : M A) : Prop :=
  forall nxt e nxt', m nxt = (Throw e, nxt') -> P e.

Definition yields {A} (Q : A -> Prop) (m : M A) : Prop :=
  forall nxt a nxt', m nxt = (Ret a, nxt') -> Q a.

(** The [response] variable of [uploadFile]: still [undefined], or an answer
    whose status [_write] has seen to be 0. *)
Definition passed (response : option Uint8Array) : Prop :=
  match response with
  | None => True
  | Some r => r !! 2%nat = Some 0
  end.

(** The error of a transfer that brought no data. *)
Definition transferError (r : Reply) : Error :=
  match r with NoData => NoDataReceived | _ => TransferFailed end.

(** A name whose last four code units are [.rxe] in any letter case. *)
Definition rxeSuffix (name : JsString) : bool :=
  match drop (length name - 4) name with
  | [d; r; x; e] =>
      (d =? 46) && ((r =? 82) || (r =? 114)) && ((x =? 88) || (x =? 120))
      && ((e =? 69) || (e =? 101))
  | _ => false
  end.

(** ** The page script

    The click handlers of the stop button and of the delete button.
    [printToConsole] comes from a module that is not among the sources: it is
    a parameter here, a function of its argument and of a console it
    changes, about which nothing is assumed. *)

Inductive Printed :=
  | Say (text : JsString)      (* printToConsole("...") *)
  | Report (error : Error).    (* printToConsole(error) *)

(** Truthiness of a number, as an [if] takes it. *)
Definition truthy (z : Z) : bool := negb (z =? 0).

(** [btnStopProgram.addEventListener("click", async () => ...)]. *)
Definition btnStopProgram_click {Console}
    (printToConsole : option Printed -> Console -> Console)
    (console : Console) (brick : Nxt) : Outcome unit * (Console * Nxt) :=
  match stopProgram brick with
  | (Ret _, brick') =>
      (Ret tt,
       (printToConsole None (printToConsole (Some (Say (js "Program stopped"))) console),
        brick'))
  | (Throw error, brick') =>
      if looseNeq (statusCode error) 236 then (Throw error, (console, brick'))
      else
        (Ret tt,
         (printToConsole None (printToConsole (Some (Say (js "No program running"))) console),
          brick'))
  | (Pending, brick') => (Pending, (console, brick'))
  end.

(** [btnDeleteFile.addEventListener("click", async () => ...)], run on the
    value of the file-name input. The condition of the [catch] block is the
    assignment [error.statusCode = 135], whose value is 135. *)
Definition btnDeleteFile_click {Console}
    (printToConsole : option Printed -> Console -> Console)
    (fileName : JsString) (console : Console) (brick : Nxt)
  : Outcome unit * (Console * Nxt) :=
  match fileName with
  | [] =>
      (Ret tt,
       (printToConsole None
          (printToConsole (Some (Say (js "No file name provided"))) console),
        brick))
  | _ :: _ =>
      match deleteFile fileName brick with
      | (Ret _, brick') =>
          (Ret tt,
           (printToConsole None
              (printToConsole
                 (Some (Say (js "File " ++ [34] ++ fileName ++ [34] ++ js " deleted")))
                 console),
            brick'))
      | (Throw error, brick') =>
          let assigned := 135 in
          if truthy assigned then
            (Ret tt,
             (printToConsole None
                (printToConsole (Some (Say (js "File not found."))) console),
              brick'))
          else
            (Throw error,
             (printToConsole None (printToConsole (Some (Report error)) console), brick'))
      | (Pending, brick') => (Pending, (console, brick'))
      end
  end.

(** ** Trying the embedding on concrete exchanges *)

Example getFirmwareVersion_scenario :
  getFirmwareVersion (connected [] [Data [0x02; 0x88; 0x00; 0x04; 0x01; 0x1F; 0x01]])
  = (Ret (mkFirmwareVersion (Some 4) (Some 1) (Some 31) (Some 1)),
     connected [[0x01; 0x88]] []).
Proof. reflexivity. Qed.

Example getDeviceInfo_scenario :
  fst (getDeviceInfo (connected []
         [Data ([0x02; 0x9B; 0x00] ++ js "Robot" ++ replicate 10 0
                ++ [0x00; 0x16; 0x53; 0xAA; 0xBB; 0xCC; 0x00]
                ++ [0x0A; 0x00; 0x00; 0x00] ++ [0x00; 0x40; 0x00; 0x00])]))
  = Ret (mkDeviceInfo (js "Robot") [0; 22; 83; 170; 187; 204] 10 16384).
Proof. now vm_compute. Qed.

Example uploadChunks_two_packets :
  uploadChunks (replicate 62 7) = [(replicate 61 7, false); ([7], true)].
Proof. now vm_compute. Qed.

(** ** Running one step on a connected session *)

Lemma bind_run {A B} (m : M A) (k : A -> M B) nxt a nxt' :
  m nxt = (Ret a, nxt') -> bind m k nxt = k a nxt'.
Proof. intros H. unfold bind. now rewrite H. Qed.

Lemma bind_throw {A B} (m : M A) (k : A -> M B) nxt e nxt' :
  m nxt = (Throw e, nxt') -> bind m k nxt = (Throw e, nxt').
Proof. intros H. unfold bind. now rewrite H. Qed.

Lemma requireDevice_connected sent answers :
  requireDevice (connected sent answers) = (Ret tt, connected sent answers).
Proof. reflexivity. Qed.

Lemma sendCommand_connected command sent answers :
  sendCommand command (connected sent answers)
  = (Ret tt, connected (sent ++ [command]) answers).
Proof. reflexivity. Qed.

Lemma receiveData_connected sent data answers :
  receiveData (connected sent (Data data :: answers))
  = (Ret data, connected sent answers).
Proof. reflexivity. Qed.

Lemma getFirmwareVersion_connected sent data answers :
  getFirmwareVersion (connected sent (Data data :: answers))
  = (Ret {| minorProtocol := data !! 3%nat;
            majorProtocol := data !! 4%nat;
            minorFirmware := data !! 5%nat;
            majorFirmware := data !! 6%nat |},
     connected (sent ++ [probe]) answers).
Proof. reflexivity. Qed.

Lemma checkConnection_connected sent data answers :
  checkConnection (connected sent (Data data :: answers))
  = (Ret true, connected (sent ++ [probe]) answers).
Proof. reflexivity. Qed.

Lemma paddedName_fits width str nxt :
  (length str <= width)%nat ->
  paddedName width str nxt
  = (Ret ((toUint8 <$> str) ++ replicate (width - length str) 0), nxt).
Proof.
  intros H. unfold paddedName.
  destruct (Nat.ltb_spec width (length str)); [lia | reflexivity].
Qed.

(** The connection check never throws: it answers, or it waits for ever. *)
Lemma checkConnection_total nxt :
  exists nxt', checkConnection nxt = (Ret true, nxt')
            \/ checkConnection nxt = (Ret false, nxt')
            \/ checkConnection nxt = (Pending, nxt').
Proof.
  destruct nxt as [[[[] sent [|[data| |] answers]]|]]; eexists; cbv; eauto.
Qed.

(** ** C1: the length check of [setBrickName] comes after the connection check *)

(** Whatever the session, a name of more than 15 characters is never
    encoded: the call sends nothing, or the one probe of its connection
    check. *)
Lemma setBrickName_long_sends_at_most_probe name nxt :
  (15 < length name)%nat ->
  sentLog (snd (setBrickName name nxt)) = sentLog nxt
  \/ sentLog (snd (setBrickName name nxt)) = sentLog nxt ++ [probe].
Proof.
  intros Hlong. unfold setBrickName.
  destruct (Nat.ltb_spec 15 (length name)) as [_|]; [|lia].
  destruct nxt as [[[[] sent [|[data| |] answers]]|]]; cbv; auto.
Qed.

(** C1, as the code has it: for every name longer than 15 characters, on a
    session whose connection check is answered, [setBrickName] fails with the
    name-too-long error, and the one buffer it hands to the transport is the
    firmware-version probe of that check; the rename command is never built. *)
Theorem setBrickName_too_long name sent data answers :
  (15 < length name)%nat ->
  setBrickName name (connected sent (Data data :: answers))
  = (Throw NameTooLong, connected (sent ++ [probe]) answers).
Proof.
  intros Hlong. unfold setBrickName.
  rewrite (bind_run _ _ _ _ _ (requireDevice_connected _ _)).
  rewrite (bind_run _ _ _ _ _ (checkConnection_connected _ _ _)).
  cbn [negb].
  destruct (Nat.ltb_spec 15 (length name)); [reflexivity | lia].
Qed.

Lemma setBrickName_too_long_witness :
  setBrickName (js "SixteenCharsName")
    (connected [] [Data [0x02; 0x88; 0x00; 0x04; 0x01; 0x1F; 0x01]])
  = (Throw NameTooLong, connected ([] ++ [probe]) []).
Proof. apply setBrickName_too_long. vm_compute. lia. Defined.

(** C1 as stated fails: with a 16-character name on a live connection the
    call does fail with the name-too-long error, but only after the
    firmware-version probe went out. *)
Lemma setBrickName_long_name_probe_sent :
  let name := js "SixteenCharsName" in
  let nxt := connected [] [Data [0x02; 0x88; 0x00; 0x04; 0x01; 0x1F; 0x01]] in
  (15 < length name)%nat
  /\ fst (setBrickName name nxt) = Throw NameTooLong
  /\ sentLog nxt = []
  /\ sentLog (snd (setBrickName name nxt)) = [[0x01; 0x88]].
Proof. cbv zeta. split; [vm_compute; lia | now vm_compute]. Qed.

(** ** C2: the two query decoders never look at the status byte *)

(** The answer of [getDeviceInfo] is likewise built from the payload bytes
    alone, whatever byte 2 holds. *)
Lemma getDeviceInfo_connected sent data answers :
  getDeviceInfo (connected sent (Data data :: answers))
  = (Ret {| nxtName := stripNul (slice data 3 18);
            btAddress := slice data 18 24;
            btSignalStrength := le32 data 25;
            freeUserFlash := le32 data 29 |},
     connected (sent ++ [[0x01; 0x9b]]) answers).
Proof. reflexivity. Qed.

(** C2, the code at a failing input: two 64-byte responses whose status byte
    is 0xDD. [getFirmwareVersion] and [getDeviceInfo] resolve with the payload
    bytes decoded as a version and as a device description; neither reads
    byte 2. *)
Theorem query_decoders_skip_status :
  length failedFirmwareReply = 64%nat
  /\ failedFirmwareReply !! 2%nat = Some 0xDD
  /\ fst (getFirmwareVersion (connected [] [Data failedFirmwareReply]))
     = Ret (mkFirmwareVersion (Some 4) (Some 1) (Some 31) (Some 1))
  /\ length failedDeviceInfoReply = 64%nat
  /\ failedDeviceInfoReply !! 2%nat = Some 0xDD
  /\ fst (getDeviceInfo (connected [] [Data failedDeviceInfoReply]))
     = Ret (mkDeviceInfo (js "Robot") [0; 22; 83; 170; 187; 204] 10 16384).
Proof. now vm_compute. Qed.

(** ** C3: [listFiles] decodes the find-first answer without a status check *)

(** C3, the code at a failing input: find-first is answered with status
    0x87, the find-next that follows with 0x87 too, and the close with
    status 0. [listFiles] resolves, and its result holds the entry decoded
    from the failed find-first answer. *)
Theorem listFiles_keeps_failed_find_first :
  findFirstFailed !! 2%nat = Some 0x87
  /\ listFiles (connected []
       [Data [0x02; 0x88; 0x00; 0x04; 0x01; 0x1F; 0x01];
        Data findFirstFailed;
        Data [0x02; 0x87; 0x87; 0x00];
        Data [0x02; 0x84; 0x00; 0x00]])
     = (Ret [FileInfo.mk (js "ghost.rxe") 42],
        connected [probe; [0x01; 0x86] ++ wildcard; [0x01; 0x87; 0x00]; [0x01; 0x84; 0x00]] []).
Proof. now vm_compute. Qed.

(** ** C4: the enumeration loop *)

(** While the answers carry status 0 the loop appends what they decode to;
    the first other status ends it. Any number of turns above the number of
    good answers gives the same run. *)
Lemma findNextLoop_run nexts :
  forall turns handle files sent last answers,
    (length nexts < turns)%nat ->
    Forall (fun data => data !! 2%nat = Some 0) nexts ->
    last !! 2%nat <> Some 0 ->
    findNextLoop turns handle files
      (connected sent ((Data <$> nexts) ++ Data last :: answers))
    = (Ret (files ++ (decodeEntry <$> nexts)),
       connected (sent ++ replicate (S (length nexts)) (findNextCmd handle)) answers).
Proof.
  induction nexts as [|data nexts IH]; intros turns handle files sent last answers Hturns Hok Hlast.
  - destruct turns as [|turns]; [simpl in Hturns; lia|].
    cbn [findNextLoop fmap list_fmap app].
    rewrite (bind_run _ _ _ _ _ (sendCommand_connected _ _ _)).
    rewrite (bind_run _ _ _ _ _ (receiveData_connected _ _ _)).
    assert (strictNeq0 (last !! 2%nat) = true) as ->.
    { destruct (last !! 2%nat) as [[| |]|]; try reflexivity. now contradict Hlast. }
    cbn [negb]. unfold ret. now rewrite app_nil_r.
  - destruct turns as [|turns]; [simpl in Hturns; lia|].
    inversion Hok as [|? ? Hdata Hrest]; subst.
    cbn [findNextLoop fmap list_fmap app].
    rewrite (bind_run _ _ _ _ _ (sendCommand_connected _ _ _)).
    rewrite (bind_run _ _ _ _ _ (receiveData_connected _ _ _)).
    rewrite Hdata. cbn [strictNeq0 negb].
    change (list_fmap _ _ Data nexts) with (Data <$> nexts).
    rewrite IH by (simpl in Hturns; auto; lia).
    f_equal.
    + now rewrite <- app_assoc.
    + cbn [length replicate]. now rewrite <- app_assoc.
Qed.

(** The turn counter of [listFiles] never runs out: with more turns than the
    device has answers queued, the loop ends as it does with any larger
    number of turns, whatever the session. *)
Lemma findNextLoop_fuel turns :
  forall turns' handle files nxt,
    (length (replies nxt) < turns)%nat -> (length (replies nxt) < turns')%nat ->
    findNextLoop turns handle files nxt = findNextLoop turns' handle files nxt.
Proof.
  induction turns as [|turns IH]; intros turns' handle files nxt H H'; [lia|].
  destruct turns' as [|turns']; [lia|].
  destruct nxt as [[[[] sent answers]|]]; try reflexivity.
  change (mkNxt (Some (mkUsb true sent answers))) with (connected sent answers) in *.
  cbn [findNextLoop].
  rewrite !(bind_run _ _ _ _ _ (sendCommand_connected _ _ _)).
  destruct answers as [|[data| |] answers]; try reflexivity.
  rewrite !(bind_run _ _ _ _ _ (receiveData_connected _ _ _)).
  destruct (negb (strictNeq0 (data !! 2%nat))); [|reflexivity].
  apply IH; cbn in *; lia.
Qed.

Lemma filter_close_findNext N handle :
  filter (fun command => isCloseCmd command) (replicate N (findNextCmd handle)) = [].
Proof.
  induction N as [|N IH]; [reflexivity|].
  cbn [replicate]. rewrite filter_cons_False; [exact IH|].
  unfold isCloseCmd, findNextCmd. rewrite bool_decide_eq_false_2; [easy|].
  cbn. intros [_ H]. discriminate H.
Qed.

(** A listing on a connected session, whatever the status of the find-first
    answer: its entry comes first in the result. *)
Lemma listFiles_run sent probeR first nexts last closeR answers :
  Forall (fun data => data !! 2%nat = Some 0) nexts ->
  last !! 2%nat <> Some 0 ->
  listFiles (connected sent
      (Data probeR :: Data first :: (Data <$> nexts) ++ Data last :: Data closeR :: answers))
  = (if strictNeq0 (closeR !! 2%nat) then Throw (CloseFailed (closeR !! 2%nat))
     else Ret (decodeEntry <$> (first :: nexts)),
     connected
       (sent ++ [probe; [0x01; 0x86] ++ wildcard]
        ++ replicate (S (length nexts)) (findNextCmd (first !! 3%nat))
        ++ [closeCmd (first !! 3%nat)])
       answers).
Proof.
  intros Hnexts Hlast. unfold listFiles.
  rewrite (bind_run _ _ _ _ _ (requireDevice_connected _ _)).
  rewrite (bind_run _ _ _ _ _ (checkConnection_connected _ _ _)).
  cbn [negb].
  rewrite (bind_run _ _ _ _ _ (sendCommand_connected _ _ _)).
  rewrite (bind_run _ _ _ _ _ (receiveData_connected _ _ _)).
  erewrite bind_run; cycle 1.
  { apply findNextLoop_run; [|exact Hnexts|exact Hlast].
    unfold replies, connected; cbn [connectedDevice incoming].
    rewrite length_app, length_fmap. lia. }
  rewrite (bind_run _ _ _ _ _ (sendCommand_connected _ _ _)).
  rewrite (bind_run _ _ _ _ _ (receiveData_connected _ _ _)).
  assert (forall A (o : Outcome A) l l', l = l' ->
            (o, connected l answers) = (o, connected l' answers)) as Hstate
    by (intros; now subst).
  destruct (strictNeq0 (closeR !! 2%nat)); unfold throw, ret; apply Hstate;
    unfold closeCmd; cbn [_handleFindReturnPacket FindPacket.handle];
    now rewrite <- !app_assoc.
Qed.

(** C4: the device answers find-first with status 0, the first [N - 1]
    find-next commands with status 0, and the [N]th with another status.
    [listFiles] then hands over exactly: the probe of its connection check,
    find-first, [N] find-next commands on the handle of the find-first
    answer, and one close-handle command. Its result is decided by the status
    of the close answer: a nonzero one is thrown; otherwise the result is the
    [N] entries decoded from the good answers, in the order they came. *)
Theorem listFiles_enumerates (N : nat) sent probeR first nexts last closeR answers :
  (1 <= N)%nat ->
  length nexts = (N - 1)%nat ->
  first !! 2%nat = Some 0 ->
  Forall (fun data => data !! 2%nat = Some 0) nexts ->
  last !! 2%nat <> Some 0 ->
  let handle := first !! 3%nat in
  let commands :=
    [probe; [0x01; 0x86] ++ wildcard]
    ++ replicate N (findNextCmd handle) ++ [closeCmd handle] in
  let files := decodeEntry <$> (first :: nexts) in
  listFiles (connected sent
      (Data probeR :: Data first :: (Data <$> nexts) ++ Data last :: Data closeR :: answers))
  = (if strictNeq0 (closeR !! 2%nat) then Throw (CloseFailed (closeR !! 2%nat))
     else Ret files,
     connected (sent ++ commands) answers)
  /\ length files = N
  /\ length (filter (fun command => isCloseCmd command) commands) = 1%nat.
Proof.
  intros HN Hlen Hfirst Hnexts Hlast handle commands files.
  split; [|split].
  - rewrite listFiles_run by assumption.
    unfold commands, files, handle.
    now replace (S (length nexts)) with N by lia.
  - unfold files. rewrite length_fmap. cbn [length]. lia.
  - unfold commands.
    rewrite !list.filter_app, filter_close_findNext.
    reflexivity.
Qed.

Lemma listFiles_enumerates_witness :
  listFiles (connected []
      (Data [0x02; 0x88; 0x00; 0x04; 0x01; 0x1F; 0x01]
       :: Data ([0x02; 0x86; 0x00; 0x05] ++ js "a.rxe" ++ replicate 15 0 ++ [0x10; 0x00; 0x00; 0x00])
       :: (Data <$> [[0x02; 0x87; 0x00; 0x05] ++ js "b.rxe" ++ replicate 15 0 ++ [0x00; 0x01; 0x00; 0x00]])
       ++ Data [0x02; 0x87; 0x87; 0x00] :: Data [0x02; 0x84; 0x00; 0x05] :: []))
  = (Ret [FileInfo.mk (js "a.rxe") 16; FileInfo.mk (js "b.rxe") 256],
     connected [probe; [0x01; 0x86] ++ wildcard;
                [0x01; 0x87; 0x05]; [0x01; 0x87; 0x05]; [0x01; 0x84; 0x05]] []).
Proof.
  refine (proj1 (listFiles_enumerates 2 [] _ _ _ _ _ [] _ _ _ _ _)).
  - lia.
  - reflexivity.
  - reflexivity.
  - repeat constructor.
  - vm_compute. discriminate.
Defined.

(** ** C5: cutting the file content into write packets *)

Lemma slice_stride (data : Uint8Array) i :
  slice data i (i + packetChunkSize - 3) = take 61 (drop i data).
Proof. unfold slice, packetChunkSize. f_equal. lia. Qed.

Lemma chunksFrom_past_end turns (data : Uint8Array) i :
  (length data <= i)%nat -> chunksFrom turns data i = [].
Proof.
  intros H. destruct turns; cbn [chunksFrom];
    destruct (Nat.ltb_spec i (length data)); (lia || reflexivity).
Qed.

Lemma chunksFrom_step turns (data : Uint8Array) i :
  (i < length data)%nat ->
  chunksFrom (S turns) data i
  = (take 61 (drop i data), (length data <=? i + 61)%nat) :: chunksFrom turns data (i + 61).
Proof.
  intros H. cbn [chunksFrom].
  destruct (Nat.ltb_spec i (length data)); [|lia].
  rewrite slice_stride. unfold packetChunkSize.
  now replace (i + 64 - 3)%nat with (i + 61)%nat by lia.
Qed.

(** Glued back together, the chunks cut from offset [i] on are the content
    from offset [i] on. *)
Lemma chunksFrom_concat turns :
  forall (data : Uint8Array) i,
    (length data - i <= turns)%nat ->
    concat (fst <$> chunksFrom turns data i) = drop i data.
Proof.
  induction turns as [|turns IH]; intros data i Hturns.
  - rewrite chunksFrom_past_end by lia. now rewrite drop_ge by lia.
  - destruct (Nat.lt_ge_cases i (length data)) as [Hlt|Hge].
    + rewrite chunksFrom_step by exact Hlt.
      cbn [fmap list_fmap concat fst].
      change (list_fmap _ _ fst ?l) with (fst <$> l).
      rewrite IH by lia.
      rewrite <- (drop_drop data 61 i).
      apply take_drop.
    + rewrite chunksFrom_past_end by lia. now rewrite drop_ge by lia.
Qed.

Lemma chunksFrom_flags turns :
  forall (data : Uint8Array) i,
    (length data - i <= turns)%nat ->
    snd <$> chunksFrom turns data i = lastOnly (length (chunksFrom turns data i)).
Proof.
  induction turns as [|turns IH]; intros data i Hturns.
  - now rewrite chunksFrom_past_end by lia.
  - destruct (Nat.lt_ge_cases i (length data)) as [Hlt|Hge].
    + rewrite chunksFrom_step by exact Hlt.
      cbn [fmap list_fmap snd length lastOnly].
      change (list_fmap _ _ snd ?l) with (snd <$> l).
      rewrite IH by lia.
      destruct (Nat.leb_spec (length data) (i + 61)) as [Hlast|Hmore].
      * now rewrite chunksFrom_past_end by lia.
      * destruct turns as [|turns']; [lia|].
        rewrite chunksFrom_step by lia. reflexivity.
    + now rewrite chunksFrom_past_end by lia.
Qed.

Lemma chunksFrom_sizes turns :
  forall (data : Uint8Array) i,
    Forall (fun chunk => (1 <= length chunk.1 <= 61)%nat) (chunksFrom turns data i).
Proof.
  induction turns as [|turns IH]; intros data i.
  - cbn [chunksFrom]. destruct (i <? length data)%nat; constructor.
  - destruct (Nat.lt_ge_cases i (length data)) as [Hlt|Hge].
    + rewrite chunksFrom_step by exact Hlt. constructor; [|apply IH].
      cbn [fst]. rewrite length_take, length_drop. lia.
    + rewrite chunksFrom_past_end by lia. constructor.
Qed.

(** The turn counter of the write loop never runs out: [length data] turns
    cut the same chunks as any larger number. *)
Lemma chunksFrom_fuel turns :
  forall turns' (data : Uint8Array) i,
    (length data - i <= turns)%nat -> (length data - i <= turns')%nat ->
    chunksFrom turns data i = chunksFrom turns' data i.
Proof.
  induction turns as [|turns IH]; intros turns' data i H H'.
  - now rewrite !chunksFrom_past_end by lia.
  - destruct (Nat.lt_ge_cases i (length data)) as [Hlt|Hge].
    + destruct turns' as [|turns']; [lia|].
      rewrite !chunksFrom_step by exact Hlt. f_equal. apply IH; lia.
    + now rewrite !chunksFrom_past_end by lia.
Qed.

(** ** The commands of the upload, and its steps on a connected session *)

Ltac run :=
  repeat first
    [ rewrite (bind_run _ _ _ _ _ (requireDevice_connected _ _))
    | rewrite (bind_run _ _ _ _ _ (checkConnection_connected _ _ _))
    | rewrite (bind_run _ _ _ _ _ (getFirmwareVersion_connected _ _ _))
    | rewrite (bind_run _ _ _ _ _ (sendCommand_connected _ _ _))
    | rewrite (bind_run _ _ _ _ _ (receiveData_connected _ _ _))
    | progress cbn [negb] ].

Lemma strictNeq0_true v : strictNeq0 v = true <-> v <> Some 0.
Proof. destruct v as [[| |]|]; cbn; split; congruence. Qed.

Lemma stopProgram_connected sent probeR stopR answers :
  stopProgram (connected sent (Data probeR :: Data stopR :: answers))
  = (if strictNeq0 (stopR !! 2%nat) then Throw (StopFailed (stopR !! 2%nat)) else Ret tt,
     connected (sent ++ [probe; stopCmd]) answers).
Proof.
  unfold stopProgram. run. rewrite <- app_assoc.
  destruct (strictNeq0 (stopR !! 2%nat)); reflexivity.
Qed.

Lemma deleteFile_connected fileName sent probeR deleteR answers :
  (length fileName <= 20)%nat ->
  deleteFile fileName (connected sent (Data probeR :: Data deleteR :: answers))
  = (if strictNeq0 (deleteR !! 2%nat) then Throw (DeleteFailed (deleteR !! 2%nat)) else Ret tt,
     connected (sent ++ [probe; deleteCmd fileName]) answers).
Proof.
  intros Hname. unfold deleteFile. run.
  rewrite (bind_run _ _ _ _ _ (paddedName_fits _ _ _ Hname)). run.
  rewrite <- app_assoc.
  destruct (strictNeq0 (deleteR !! 2%nat)); reflexivity.
Qed.

Lemma openLinearWrite_connected sent openR answers :
  _openLinearWrite (js "Untitled1.rxe") 244 (connected sent (Data openR :: answers))
  = (if strictNeq0 (openR !! 2%nat) then Throw (OpenLinearWriteFailed (openR !! 2%nat))
     else Ret (openR !! 3%nat),
     connected (sent ++ [fixedOpenCmd]) answers).
Proof.
  unfold _openLinearWrite.
  change (20 <? length (js "Untitled1.rxe"))%nat with false. cbv iota.
  assert (length (js "Untitled1.rxe") <= 20)%nat as Hname by (vm_compute; lia).
  rewrite (bind_run _ _ _ _ _ (paddedName_fits _ _ _ Hname)).
  run. destruct (strictNeq0 (openR !! 2%nat)); reflexivity.
Qed.

Lemma write_connected handle chunk sent answers :
  (length chunk <= 61)%nat ->
  _write handle chunk false (connected sent answers)
  = (Ret None, connected (sent ++ [writeCmd handle (chunk, false)]) answers).
Proof.
  intros H. unfold _write.
  destruct (Nat.ltb_spec (64 - 3) (length chunk)); [lia|]. now run.
Qed.

Lemma write_connected_last handle chunk sent writeR answers :
  (length chunk <= 61)%nat ->
  _write handle chunk true (connected sent (Data writeR :: answers))
  = (if strictNeq0 (writeR !! 2%nat) then Throw (WriteFailed (writeR !! 2%nat))
     else Ret (Some writeR),
     connected (sent ++ [writeCmd handle (chunk, true)]) answers).
Proof.
  intros H. unfold _write.
  destruct (Nat.ltb_spec (64 - 3) (length chunk)); [lia|]. run.
  destruct (strictNeq0 (writeR !! 2%nat)); reflexivity.
Qed.

Lemma writeLoop_past_end turns handle (data : Uint8Array) i response nxt :
  (length data <= i)%nat ->
  writeLoop turns handle data i response nxt = (Ret response, nxt).
Proof.
  intros H. destruct turns; cbn [writeLoop];
    destruct (Nat.ltb_spec i (length data)); (lia || reflexivity).
Qed.

(** The turn counter of the write loop never runs out: [length data] turns
    run as any larger number does, whatever the session. *)
Lemma writeLoop_fuel turns :
  forall turns' handle (data : Uint8Array) i response nxt,
    (length data - i <= turns)%nat -> (length data - i <= turns')%nat ->
    writeLoop turns handle data i response nxt
    = writeLoop turns' handle data i response nxt.
Proof.
  induction turns as [|turns IH]; intros turns' handle data i response nxt H H'.
  - now rewrite !writeLoop_past_end by lia.
  - destruct (Nat.lt_ge_cases i (length data)) as [Hlt|Hge].
    + destruct turns' as [|turns']; [lia|].
      cbn [writeLoop]. destruct (Nat.ltb_spec i (length data)); [|lia].
      unfold bind.
      destruct (_write handle _ _ nxt) as [[response'| |] nxt']; try reflexivity.
      apply IH; unfold packetChunkSize; lia.
    + now rewrite !writeLoop_past_end by lia.
Qed.

(** The write loop hands over one write command per chunk of [chunksFrom],
    in order, and waits for one answer only: that of the last chunk. *)
Lemma writeLoop_run turns :
  forall handle (data : Uint8Array) i response sent writeR answers,
    (length data - i <= turns)%nat ->
    (i < length data)%nat ->
    writeLoop turns handle data i response (connected sent (Data writeR :: answers))
    = (if strictNeq0 (writeR !! 2%nat) then Throw (WriteFailed (writeR !! 2%nat))
       else Ret (Some writeR),
       connected (sent ++ (writeCmd handle <$> chunksFrom turns data i)) answers).
Proof.
  induction turns as [|turns IH]; intros handle data i response sent writeR answers Hturns Hlt; [lia|].
  rewrite chunksFrom_step by exact Hlt.
  cbn [writeLoop]. destruct (Nat.ltb_spec i (length data)); [|lia].
  rewrite slice_stride.
  assert (i + packetChunkSize - 3 = i + 61)%nat as -> by (unfold packetChunkSize; lia).
  assert (length (take 61 (drop i data)) <= 61)%nat as Hchunk
    by (rewrite length_take; lia).
  destruct (Nat.leb_spec (length data) (i + 61)) as [Hlast|Hmore].
  - rewrite chunksFrom_past_end by lia.
    unfold bind at 1. rewrite write_connected_last by exact Hchunk.
    destruct (strictNeq0 (writeR !! 2%nat)); [reflexivity|].
    now rewrite writeLoop_past_end by lia.
  - rewrite (bind_run _ _ _ _ _ (write_connected _ _ _ _ Hchunk)).
    rewrite IH by lia.
    cbn [fmap list_fmap]. now rewrite <- app_assoc.
Qed.

(** C5: for every file content, the chunks the upload loop cuts at its
    61-byte stride give back the content when put together in order; each
    holds between 1 and 61 bytes; the [isLastChunk] flag, which makes
    [_write] ask for a response, is set on the final chunk and on no other;
    and the write loop hands over one write command per chunk, in order,
    taking one answer off the device's queue when there is a chunk at all. *)
Theorem upload_chunks_roundtrip (data : Uint8Array) :
  concat (fst <$> uploadChunks data) = data
  /\ snd <$> uploadChunks data = lastOnly (length (uploadChunks data))
  /\ Forall (fun chunk => (1 <= length chunk.1 <= packetChunkSize - 3)%nat) (uploadChunks data)
  /\ forall handle sent writeR answers,
       snd (writeLoop (length data) handle data 0 None
              (connected sent (Data writeR :: answers)))
       = connected (sent ++ (writeCmd handle <$> uploadChunks data))
           (match data with [] => Data writeR :: answers | _ :: _ => answers end).
Proof.
  unfold uploadChunks. split; [|split; [|split]].
  - rewrite chunksFrom_concat by lia. reflexivity.
  - apply chunksFrom_flags. lia.
  - apply chunksFrom_sizes.
  - intros handle sent writeR answers. destruct data as [|b data].
    + cbn. now rewrite app_nil_r.
    + rewrite writeLoop_run by (cbn [length]; lia). reflexivity.
Qed.

(** ** The log only grows *)

Lemma grows_ret {A} (a : A) : grows (ret a).
Proof. intros nxt. exists []. now rewrite app_nil_r. Qed.

Lemma grows_throw {A} e : grows (@throw A e).
Proof. intros nxt. exists []. now rewrite app_nil_r. Qed.

Lemma grows_pending {A} : grows (fun nxt => (@Pending A, nxt)).
Proof. intros nxt. exists []. now rewrite app_nil_r. Qed.

Lemma grows_bind {A B} (m : M A) (k : A -> M B) :
  grows m -> (forall a, grows (k a)) -> grows (bind m k).
Proof.
  intros Hm Hk nxt. destruct (Hm nxt) as [more1 H1]. unfold bind.
  destruct (m nxt) as [[a|e|] nxt1]; cbn [snd] in *; eauto.
  destruct (Hk a nxt1) as [more2 H2]. exists (more1 ++ more2).
  now rewrite H2, H1, app_assoc.
Qed.

Lemma grows_tryCatch {A} (m : M A) h :
  grows m -> (forall e, grows (h e)) -> grows (tryCatch m h).
Proof.
  intros Hm Hh nxt. destruct (Hm nxt) as [more1 H1]. unfold tryCatch.
  destruct (m nxt) as [[a|e|] nxt1]; cbn [snd] in *; eauto.
  destruct (Hh e nxt1) as [more2 H2]. exists (more1 ++ more2).
  now rewrite H2, H1, app_assoc.
Qed.

Lemma grows_requireDevice : grows requireDevice.
Proof. intros [[usb|]]; exists []; now rewrite app_nil_r. Qed.

Lemma grows_sendCommand command : grows (sendCommand command).
Proof.
  intros [[[[] sent answers]|]].
  - now exists [command].
  - exists []. now rewrite app_nil_r.
  - exists []. now rewrite app_nil_r.
Qed.

Lemma grows_receiveData : grows receiveData.
Proof.
  intros [[[[] sent [|[data| |] answers]]|]]; exists []; now rewrite app_nil_r.
Qed.

Lemma grows_paddedName width str : grows (paddedName width str).
Proof. unfold paddedName. destruct (_ <? _)%nat; [apply grows_throw | apply grows_ret]. Qed.

Ltac grow :=
  repeat first
    [ apply grows_ret | apply grows_throw | apply grows_pending
    | apply grows_requireDevice | apply grows_sendCommand
    | apply grows_receiveData | apply grows_paddedName
    | assumption
    | match goal with H : forall _, grows _ |- _ => apply H end
    | apply grows_bind; [|intro]
    | apply grows_tryCatch; [|intro]
    | match goal with
      | |- grows (if ?b then _ else _) => destruct b
      | |- grows (match ?x with Some _ => _ | None => _ end) => destruct x
      end ].

Lemma grows_getFirmwareVersion : grows getFirmwareVersion.
Proof. unfold getFirmwareVersion. grow. Qed.

Lemma grows_checkConnection : grows checkConnection.
Proof. pose proof grows_getFirmwareVersion. unfold checkConnection. grow. Qed.

Lemma grows_stopProgram : grows stopProgram.
Proof. pose proof grows_checkConnection. unfold stopProgram. grow. Qed.

Lemma grows_deleteFile fileName : grows (deleteFile fileName).
Proof. pose proof grows_checkConnection. unfold deleteFile. grow. Qed.

Lemma grows_openLinearWrite name size : grows (_openLinearWrite name size).
Proof. unfold _openLinearWrite. grow. Qed.

Lemma grows_write handle data requireResponse : grows (_write handle data requireResponse).
Proof. unfold _write. grow. Qed.

Lemma grows_writeLoop turns :
  forall handle data i response, grows (writeLoop turns handle data i response).
Proof.
  induction turns as [|turns IH]; intros handle data i response; cbn [writeLoop].
  - grow.
  - pose proof (grows_write handle). specialize (IH handle data (i + packetChunkSize - 3)%nat).
    destruct (i <? length data)%nat; [|grow].
    apply grows_bind; [apply grows_write | intro; apply IH].
Qed.

(** Whatever the session and the answers, no call takes a buffer back. *)
Lemma grows_uploadFile file stop : grows (uploadFile file stop).
Proof.
  pose proof grows_checkConnection. pose proof grows_getFirmwareVersion.
  pose proof grows_stopProgram. pose proof grows_openLinearWrite.
  unfold uploadFile. destruct file as [file|]; [|grow].
  pose proof (grows_deleteFile (File.name file)).
  pose proof (fun h => grows_writeLoop (length (File.content file)) h (File.content file) 0%nat None).
  grow.
Qed.

Lemma grows_after {A B} (m : M A) (k : A -> M B) nxt o nxt1 :
  m nxt = (o, nxt1) ->
  (forall a, grows (k a)) ->
  exists more, sentLog (snd (bind m k nxt)) = sentLog nxt1 ++ more.
Proof.
  intros Hm Hk. unfold bind. rewrite Hm.
  destruct o as [a|e|]; [apply Hk | |]; exists []; now rewrite app_nil_r.
Qed.

(** On a connected session the connection check always hands the probe over,
    whatever comes back. *)
Lemma checkConnection_sends_probe sent answers :
  exists o answers',
    checkConnection (connected sent answers) = (o, connected (sent ++ [probe]) answers').
Proof. destruct answers as [|[data| |] answers]; do 2 eexists; reflexivity. Qed.

(** ** The upload, phase by phase *)

Lemma looseNeq_true v n : v <> Some n -> looseNeq v n = true.
Proof.
  destruct v as [z|]; [|reflexivity]. intros H. cbn.
  destruct (Z.eqb_spec z n); [congruence | reflexivity].
Qed.

Lemma stop_step_ok sent probeR stopR answers :
  stopR !! 2%nat = Some 0 \/ stopR !! 2%nat = Some 236 ->
  tryCatch stopProgram (absorb 236) (connected sent (Data probeR :: Data stopR :: answers))
  = (Ret tt, connected (sent ++ [probe; stopCmd]) answers).
Proof.
  intros [H|H]; unfold tryCatch; rewrite stopProgram_connected, H; reflexivity.
Qed.

Lemma stop_step_fatal sent probeR stopR answers :
  stopR !! 2%nat <> Some 0 -> stopR !! 2%nat <> Some 236 ->
  tryCatch stopProgram (absorb 236) (connected sent (Data probeR :: Data stopR :: answers))
  = (Throw (StopFailed (stopR !! 2%nat)), connected (sent ++ [probe; stopCmd]) answers).
Proof.
  intros H0 H236. unfold tryCatch. rewrite stopProgram_connected.
  rewrite (proj2 (strictNeq0_true _) H0). cbn [statusCode].
  now rewrite (looseNeq_true _ _ H236).
Qed.

Lemma delete_step_ok fileName sent probeR deleteR answers :
  (length fileName <= 20)%nat ->
  deleteR !! 2%nat = Some 0 \/ deleteR !! 2%nat = Some 135 ->
  tryCatch (deleteFile fileName) (absorb 135)
    (connected sent (Data probeR :: Data deleteR :: answers))
  = (Ret tt, connected (sent ++ [probe; deleteCmd fileName]) answers).
Proof.
  intros Hname [H|H]; unfold tryCatch;
    rewrite deleteFile_connected by exact Hname; rewrite H; reflexivity.
Qed.

Lemma delete_step_fatal fileName sent probeR deleteR answers :
  (length fileName <= 20)%nat ->
  deleteR !! 2%nat <> Some 0 -> deleteR !! 2%nat <> Some 135 ->
  tryCatch (deleteFile fileName) (absorb 135)
    (connected sent (Data probeR :: Data deleteR :: answers))
  = (Throw (DeleteFailed (deleteR !! 2%nat)),
     connected (sent ++ [probe; deleteCmd fileName]) answers).
Proof.
  intros Hname H0 H135. unfold tryCatch. rewrite deleteFile_connected by exact Hname.
  rewrite (proj2 (strictNeq0_true _) H0). cbn [statusCode].
  now rewrite (looseNeq_true _ _ H135).
Qed.

(** Up to the stop step: the connection check, the firmware check and,
    when asked for, the stop command. *)
Lemma uploadFile_start file stop sent probeR firmwareR answers :
  firmwareR !! 6%nat = Some 1 ->
  uploadFile (Some file) stop (connected sent (Data probeR :: Data firmwareR :: answers))
  = ((if stop then tryCatch stopProgram (absorb 236) else ret tt) ;;;
     deleteAndAfter file)
      (connected (sent ++ [probe; probe]) answers).
Proof.
  intros Hfw. unfold uploadFile. run.
  cbn [majorFirmware]. rewrite Hfw. cbn [looseNeq Z.eqb Pos.eqb negb].
  now rewrite <- app_assoc.
Qed.

Lemma uploadFile_past_stop file stop sent probeR firmwareR probeR' stopR answers :
  firmwareR !! 6%nat = Some 1 ->
  (stop = true -> stopR !! 2%nat = Some 0 \/ stopR !! 2%nat = Some 236) ->
  uploadFile (Some file) stop
    (connected sent (Data probeR :: Data firmwareR :: stopAnswers stop probeR' stopR ++ answers))
  = deleteAndAfter file (connected (sent ++ [probe; probe] ++ stopCmds stop) answers).
Proof.
  intros Hfw Hstop. rewrite uploadFile_start by exact Hfw.
  destruct stop; cbn [stopAnswers stopCmds app].
  - rewrite (bind_run _ _ _ _ _ (stop_step_ok _ _ _ _ (Hstop eq_refl))).
    now rewrite <- app_assoc.
  - reflexivity.
Qed.

Lemma deleteAndAfter_run file sent probeR deleteR answers :
  (length (File.name file) <= 20)%nat ->
  deleteR !! 2%nat = Some 0 \/ deleteR !! 2%nat = Some 135 ->
  deleteAndAfter file (connected sent (Data probeR :: Data deleteR :: answers))
  = openAndTransfer (File.content file)
      (connected (sent ++ [probe; deleteCmd (File.name file)]) answers).
Proof.
  intros Hname Hdel. unfold deleteAndAfter.
  now rewrite (bind_run _ _ _ _ _ (delete_step_ok _ _ _ _ _ Hname Hdel)).
Qed.

Lemma openAndTransfer_run data sent openR answers :
  openR !! 2%nat = Some 0 ->
  openAndTransfer data (connected sent (Data openR :: answers))
  = transfer (openR !! 3%nat) data (connected (sent ++ [fixedOpenCmd]) answers).
Proof.
  intros Hopen. unfold openAndTransfer. unfold bind at 1.
  now rewrite openLinearWrite_connected, Hopen.
Qed.

Lemma transfer_empty handle nxt :
  transfer handle [] nxt = (Throw JsTypeError, nxt).
Proof. reflexivity. Qed.

Lemma transfer_run handle (data : Uint8Array) sent writeR answers :
  data <> [] ->
  transfer handle data (connected sent (Data writeR :: answers))
  = (if strictNeq0 (writeR !! 2%nat) then Throw (WriteFailed (writeR !! 2%nat)) else Ret tt,
     connected (sent ++ (writeCmd handle <$> uploadChunks data)
                     ++ (if strictNeq0 (writeR !! 2%nat) then [] else [closeCmd handle]))
       answers).
Proof.
  intros Hdata. unfold transfer, bind.
  rewrite writeLoop_run by (destruct data; [congruence | cbn [length]; lia]).
  fold (uploadChunks data).
  destruct (strictNeq0 (writeR !! 2%nat)) eqn:Hst.
  - now rewrite app_nil_r.
  - cbn [finishUpload]. rewrite Hst. rewrite sendCommand_connected.
    now rewrite <- app_assoc.
Qed.

Lemma bind_extends {A B} (m : M A) (k : A -> M B) nxt log :
  (exists more, sentLog (snd (m nxt)) = log ++ more) ->
  (forall a, grows (k a)) ->
  exists more, sentLog (snd (bind m k nxt)) = log ++ more.
Proof.
  intros [more1 H1] Hk. unfold bind.
  destruct (m nxt) as [[a|e|] nxt1]; cbn [snd] in *; eauto.
  destruct (Hk a nxt1) as [more2 H2]. exists (more1 ++ more2).
  now rewrite H2, H1, app_assoc.
Qed.

Lemma tryCatch_extends {A} (m : M A) h nxt log :
  (exists more, sentLog (snd (m nxt)) = log ++ more) ->
  (forall e, grows (h e)) ->
  exists more, sentLog (snd (tryCatch m h nxt)) = log ++ more.
Proof.
  intros [more1 H1] Hh. unfold tryCatch.
  destruct (m nxt) as [[a|e|] nxt1]; cbn [snd] in *; eauto.
  destruct (Hh e nxt1) as [more2 H2]. exists (more1 ++ more2).
  now rewrite H2, H1, app_assoc.
Qed.

Lemma grows_transfer handle data : grows (transfer handle data).
Proof.
  pose proof (grows_writeLoop (length data) handle data 0%nat None).
  unfold transfer, finishUpload. grow.
Qed.

Lemma grows_openAndTransfer data : grows (openAndTransfer data).
Proof.
  pose proof grows_openLinearWrite. pose proof (fun h => grows_transfer h data).
  unfold openAndTransfer. grow.
Qed.

(** The open step hands over its one, fixed command, whatever comes back. *)
Lemma openLinearWrite_sends sent answers :
  exists o answers',
    _openLinearWrite (js "Untitled1.rxe") 244 (connected sent answers)
    = (o, connected (sent ++ [fixedOpenCmd]) answers').
Proof.
  assert (_openLinearWrite (js "Untitled1.rxe") 244 (connected sent answers)
          = (data <- receiveData ;;
             if strictNeq0 (data !! 2%nat) then throw (OpenLinearWriteFailed (data !! 2%nat))
             else ret (data !! 3%nat))
              (connected (sent ++ [fixedOpenCmd]) answers)) as ->.
  { unfold _openLinearWrite.
    change (20 <? length (js "Untitled1.rxe"))%nat with false. cbv iota.
    assert (length (js "Untitled1.rxe") <= 20)%nat as Hname by (vm_compute; lia).
    rewrite (bind_run _ _ _ _ _ (paddedName_fits _ _ _ Hname)).
    now rewrite (bind_run _ _ _ _ _ (sendCommand_connected _ _ _)). }
  destruct answers as [|[data| |] answers].
  2: { rewrite (bind_run _ _ _ _ _ (receiveData_connected _ _ _)).
       destruct (strictNeq0 (data !! 2%nat)); do 2 eexists; reflexivity. }
  all: do 2 eexists; reflexivity.
Qed.

Lemma openAndTransfer_sends data sent answers :
  exists more,
    sentLog (snd (openAndTransfer data (connected sent answers)))
    = sent ++ [fixedOpenCmd] ++ more.
Proof.
  destruct (openLinearWrite_sends sent answers) as (o & answers' & Hopen).
  destruct (grows_after _ (fun handle => transfer handle data) _ _ _ Hopen
              (fun handle => grows_transfer handle data)) as [more Hmore].
  exists more. unfold openAndTransfer. rewrite Hmore.
  cbn [sentLog connected connectedDevice transferred]. now rewrite <- app_assoc.
Qed.

(** The delete step starts with its connection check, whatever comes back. *)
Lemma deleteAndAfter_sends_probe file sent answers :
  exists more,
    sentLog (snd (deleteAndAfter file (connected sent answers)))
    = sent ++ [probe] ++ more.
Proof.
  assert (exists more,
             sentLog (snd (deleteFile (File.name file) (connected sent answers)))
             = (sent ++ [probe]) ++ more) as Hdel.
  { unfold deleteFile. rewrite (bind_run _ _ _ _ _ (requireDevice_connected _ _)).
    destruct (checkConnection_sends_probe sent answers) as (o & answers' & Hc).
    apply (grows_after _ _ _ _ _ Hc). intro. grow. }
  destruct (bind_extends (tryCatch (deleteFile (File.name file)) (absorb 135))
              (fun _ => openAndTransfer (File.content file))
              (connected sent answers) (sent ++ [probe])) as [more Hmore].
  - apply tryCatch_extends; [exact Hdel | intro; grow].
  - intro. apply grows_openAndTransfer.
  - exists more. unfold deleteAndAfter. rewrite Hmore. now rewrite <- app_assoc.
Qed.

(** Once its checks, the stop step and the delete step are through,
    [uploadFile] opens the fixed target. *)
Lemma uploadFile_reaches_open file stop sent probeR firmwareR probeR' stopR probeR'' deleteR answers :
  firmwareR !! 6%nat = Some 1 ->
  (stop = true -> stopR !! 2%nat = Some 0 \/ stopR !! 2%nat = Some 236) ->
  (length (File.name file) <= 20)%nat ->
  deleteR !! 2%nat = Some 0 \/ deleteR !! 2%nat = Some 135 ->
  exists more,
    sentLog (snd (uploadFile (Some file) stop
      (connected sent
         (Data probeR :: Data firmwareR :: stopAnswers stop probeR' stopR
          ++ Data probeR'' :: Data deleteR :: answers))))
    = sent ++ [probe; probe] ++ stopCmds stop
      ++ [probe; deleteCmd (File.name file); fixedOpenCmd] ++ more.
Proof.
  intros Hfw Hstop Hname Hdel.
  rewrite uploadFile_past_stop by assumption.
  rewrite deleteAndAfter_run by assumption.
  destruct (openAndTransfer_sends (File.content file)
              (sent ++ [probe; probe] ++ stopCmds stop ++ [probe; deleteCmd (File.name file)])
              answers) as [more Hmore].
  exists more. rewrite <- !app_assoc in *. rewrite Hmore.
  cbn [app]. reflexivity.
Qed.

(** A complete upload of a file that is not empty: every buffer handed
    over, in order. *)
Lemma uploadFile_success file stop sent probeR firmwareR probeR' stopR probeR'' deleteR
    openR writeR answers :
  firmwareR !! 6%nat = Some 1 ->
  (stop = true -> stopR !! 2%nat = Some 0 \/ stopR !! 2%nat = Some 236) ->
  (length (File.name file) <= 20)%nat ->
  deleteR !! 2%nat = Some 0 \/ deleteR !! 2%nat = Some 135 ->
  openR !! 2%nat = Some 0 ->
  File.content file <> [] ->
  writeR !! 2%nat = Some 0 ->
  uploadFile (Some file) stop
    (connected sent
       (Data probeR :: Data firmwareR :: stopAnswers stop probeR' stopR
        ++ Data probeR'' :: Data deleteR :: Data openR :: Data writeR :: answers))
  = (Ret tt,
     connected
       (sent ++ [probe; probe] ++ stopCmds stop
        ++ [probe; deleteCmd (File.name file); fixedOpenCmd]
        ++ (writeCmd (openR !! 3%nat) <$> uploadChunks (File.content file))
        ++ [closeCmd (openR !! 3%nat)])
       answers).
Proof.
  intros Hfw Hstop Hname Hdel Hopen Hdata Hwrite.
  rewrite uploadFile_past_stop by assumption.
  rewrite deleteAndAfter_run by assumption.
  rewrite openAndTransfer_run by assumption.
  rewrite transfer_run by assumption.
  rewrite Hwrite. cbn [strictNeq0].
  rewrite <- !app_assoc. reflexivity.
Qed.

(** ** C7: the two statuses the upload absorbs *)

(** C7: an upload on a live connection whose firmware check passes, for a
    file whose name fits the 20-byte field. [stopCode] is the status of the
    stop-program answer and [deleteCode] that of the delete answer.
    - A stop status other than 0 and 236 ends the upload: the error thrown
      carries that status as its [statusCode], and nothing is sent after the
      stop command.
    - Otherwise (status 0 or 236, or no stop asked for) the upload goes on
      to the delete step; there a status other than 0 and 135 ends it, the
      error carrying that status as its [statusCode].
    - Otherwise (status 0 or 135) the upload goes on: the open-linear-write
      command is the next buffer handed over. *)
Theorem upload_absorbs_236_and_135
    file stop sent probeR firmwareR probeR' stopR probeR'' deleteR answers
    (stopCode deleteCode : Z) :
  firmwareR !! 6%nat = Some 1 ->
  (length (File.name file) <= 20)%nat ->
  stopR !! 2%nat = Some stopCode ->
  deleteR !! 2%nat = Some deleteCode ->
  let run :=
    uploadFile (Some file) stop
      (connected sent
         (Data probeR :: Data firmwareR :: stopAnswers stop probeR' stopR
          ++ Data probeR'' :: Data deleteR :: answers)) in
  (stop = true -> stopCode <> 0 -> stopCode <> 236 ->
     run = (Throw (StopFailed (Some stopCode)),
            connected (sent ++ [probe; probe; probe; stopCmd])
              (Data probeR'' :: Data deleteR :: answers))
     /\ statusCode (StopFailed (Some stopCode)) = Some stopCode)
  /\ ((stop = true -> stopCode = 0 \/ stopCode = 236) ->
      deleteCode <> 0 -> deleteCode <> 135 ->
      run = (Throw (DeleteFailed (Some deleteCode)),
             connected (sent ++ [probe; probe] ++ stopCmds stop
                        ++ [probe; deleteCmd (File.name file)]) answers)
      /\ statusCode (DeleteFailed (Some deleteCode)) = Some deleteCode)
  /\ ((stop = true -> stopCode = 0 \/ stopCode = 236) ->
      deleteCode = 0 \/ deleteCode = 135 ->
      exists more,
        sentLog (snd run)
        = sent ++ [probe; probe] ++ stopCmds stop
          ++ [probe; deleteCmd (File.name file); fixedOpenCmd] ++ more).
Proof.
  intros Hfw Hname HstopR HdeleteR run. subst run.
  assert ((stop = true -> stopCode = 0 \/ stopCode = 236) ->
          (stop = true -> stopR !! 2%nat = Some 0 \/ stopR !! 2%nat = Some 236)) as Hok.
  { intros H Hs. rewrite HstopR. destruct (H Hs); subst; auto. }
  split; [|split].
  - intros -> H0 H236. split; [|reflexivity].
    rewrite uploadFile_start by exact Hfw. cbn [stopAnswers app].
    erewrite bind_throw; cycle 1.
    { apply stop_step_fatal; rewrite HstopR; congruence. }
    rewrite HstopR. now rewrite <- app_assoc.
  - intros Hstop H0 H135. split; [|reflexivity].
    rewrite uploadFile_past_stop by (try exact Hfw; apply (Hok Hstop)).
    unfold deleteAndAfter.
    erewrite bind_throw; cycle 1.
    { apply delete_step_fatal; [exact Hname | |]; rewrite HdeleteR; congruence. }
    rewrite HdeleteR. now rewrite <- !app_assoc.
  - intros Hstop Hdel.
    apply uploadFile_reaches_open; try assumption.
    + apply (Hok Hstop).
    + rewrite HdeleteR. destruct Hdel; subst; auto.
Qed.

Lemma upload_absorbs_236_and_135_witness :
  exists more,
    sentLog (snd (uploadFile (Some (File.mk (js "prog.rxe") [0x4d; 0x69])) true
      (connected []
         (Data [0x02; 0x88; 0x00; 0x04; 0x01; 0x1F; 0x01]
          :: Data [0x02; 0x88; 0x00; 0x04; 0x01; 0x1F; 0x01]
          :: stopAnswers true [0x02; 0x88; 0x00; 0x04; 0x01; 0x1F; 0x01] [0x02; 0x01; 0xEC]
          ++ Data [0x02; 0x88; 0x00; 0x04; 0x01; 0x1F; 0x01]
          :: Data [0x02; 0x85; 0x87]
          :: [Data [0x02; 0x89; 0x00; 0x03]; Data [0x02; 0x83; 0x00; 0x03]]))))
    = [] ++ [probe; probe] ++ stopCmds true
      ++ [probe; deleteCmd (js "prog.rxe"); fixedOpenCmd] ++ more.
Proof.
  refine (proj2 (proj2 (upload_absorbs_236_and_135
            (File.mk (js "prog.rxe") [0x4d; 0x69]) true [] _ _ _ _ _ _ _ 236 135 _ _ _ _)) _ _).
  - reflexivity.
  - vm_compute. lia.
  - reflexivity.
  - reflexivity.
  - intros _. right. reflexivity.
  - right. reflexivity.
Defined.

(** ** C9: the fixed target of the upload *)

(** C9: for every file (its name fits the 20-byte field, as the delete step
    needs) and every run in which the checks, the stop step and the delete
    step are through, the delete command carries the file's own name, and
    the buffer handed over right after it is the open-linear-write command
    for ["Untitled1.rxe"] with declared size 244: a constant in which
    neither the file's name nor its size occurs. *)
Theorem upload_opens_fixed_target
    file stop sent probeR firmwareR probeR' stopR probeR'' deleteR answers :
  firmwareR !! 6%nat = Some 1 ->
  (stop = true -> stopR !! 2%nat = Some 0 \/ stopR !! 2%nat = Some 236) ->
  (length (File.name file) <= 20)%nat ->
  deleteR !! 2%nat = Some 0 \/ deleteR !! 2%nat = Some 135 ->
  (exists more,
     sentLog (snd (uploadFile (Some file) stop
       (connected sent
          (Data probeR :: Data firmwareR :: stopAnswers stop probeR' stopR
           ++ Data probeR'' :: Data deleteR :: answers))))
     = sent ++ [probe; probe] ++ stopCmds stop
       ++ [probe; deleteCmd (File.name file); fixedOpenCmd] ++ more)
  /\ deleteCmd (File.name file)
     = [0x01; 0x85] ++ (toUint8 <$> File.name file)
       ++ replicate (20 - length (File.name file)) 0
  /\ fixedOpenCmd
     = [0x01; 0x89] ++ (js "Untitled1.rxe" ++ replicate 7 0) ++ [244; 0; 0; 0].
Proof.
  intros Hfw Hstop Hname Hdel. split; [|split].
  - now apply uploadFile_reaches_open.
  - reflexivity.
  - reflexivity.
Qed.

Lemma upload_opens_fixed_target_witness :
  exists more,
    sentLog (snd (uploadFile (Some (File.mk (js "line_follower.rxe") (replicate 100 7))) false
      (connected []
         (Data [0x02; 0x88; 0x00; 0x04; 0x01; 0x1F; 0x01]
          :: Data [0x02; 0x88; 0x00; 0x04; 0x01; 0x1F; 0x01]
          :: stopAnswers false [] []
          ++ Data [0x02; 0x88; 0x00; 0x04; 0x01; 0x1F; 0x01]
          :: Data [0x02; 0x85; 0x00]
          :: [Data [0x02; 0x89; 0x00; 0x03]; Data [0x02; 0x83; 0x00; 0x03]]))))
    = [] ++ [probe; probe] ++ stopCmds false
      ++ [probe; deleteCmd (js "line_follower.rxe"); fixedOpenCmd] ++ more.
Proof.
  refine (proj1 (upload_opens_fixed_target
            (File.mk (js "line_follower.rxe") (replicate 100 7)) false [] _ _ [] [] _ _ _ _ _ _ _)).
  - reflexivity.
  - intros H. discriminate H.
  - vm_compute. lia.
  - left. reflexivity.
Defined.

(** ** C10: the upload of an empty file *)

(** C10: the file has no content; the checks, the stop step, the delete step
    and the open step all pass. [uploadFile] then runs no turn of its write
    loop, [response] is still [undefined] when its index 2 is read, and the
    call fails with that TypeError. The buffers handed over end with the
    open-linear-write command: there is no write command (opcode 0x83) and no
    close-handle command (opcode 0x84) among them. *)
Theorem uploadFile_empty_content
    file stop sent probeR firmwareR probeR' stopR probeR'' deleteR openR answers :
  File.content file = [] ->
  firmwareR !! 6%nat = Some 1 ->
  (stop = true -> stopR !! 2%nat = Some 0 \/ stopR !! 2%nat = Some 236) ->
  (length (File.name file) <= 20)%nat ->
  deleteR !! 2%nat = Some 0 \/ deleteR !! 2%nat = Some 135 ->
  openR !! 2%nat = Some 0 ->
  let commands :=
    [probe; probe] ++ stopCmds stop
    ++ [probe; deleteCmd (File.name file); fixedOpenCmd] in
  uploadChunks (File.content file) = []
  /\ uploadFile (Some file) stop
       (connected sent
          (Data probeR :: Data firmwareR :: stopAnswers stop probeR' stopR
           ++ Data probeR'' :: Data deleteR :: Data openR :: answers))
     = (Throw JsTypeError, connected (sent ++ commands) answers)
  /\ Forall (fun command : Uint8Array =>
               command !! 1%nat <> Some 0x83 /\ command !! 1%nat <> Some 0x84)
       commands.
Proof.
  intros Hdata Hfw Hstop Hname Hdel Hopen commands. split; [|split].
  - now rewrite Hdata.
  - rewrite uploadFile_past_stop by assumption.
    rewrite deleteAndAfter_run by assumption.
    rewrite openAndTransfer_run by assumption.
    rewrite Hdata, transfer_empty. unfold commands.
    now rewrite <- !app_assoc.
  - unfold commands. destruct stop; cbn [stopCmds app];
      repeat constructor; cbn; discriminate.
Qed.

Lemma uploadFile_empty_content_witness :
  uploadFile (Some (File.mk (js "empty.rxe") [])) true
    (connected []
       (Data [0x02; 0x88; 0x00; 0x04; 0x01; 0x1F; 0x01]
        :: Data [0x02; 0x88; 0x00; 0x04; 0x01; 0x1F; 0x01]
        :: stopAnswers true [0x02; 0x88; 0x00; 0x04; 0x01; 0x1F; 0x01] [0x02; 0x01; 0x00]
        ++ Data [0x02; 0x88; 0x00; 0x04; 0x01; 0x1F; 0x01]
        :: Data [0x02; 0x85; 0x87]
        :: Data [0x02; 0x89; 0x00; 0x03] :: []))
  = (Throw JsTypeError,
     connected ([] ++ [probe; probe] ++ stopCmds true
                ++ [probe; deleteCmd (js "empty.rxe"); fixedOpenCmd]) []).
Proof.
  refine (proj1 (proj2 (uploadFile_empty_content
            (File.mk (js "empty.rxe") []) true [] _ _ _ _ _ _ _ [] _ _ _ _ _ _))).
  - reflexivity.
  - reflexivity.
  - intros _. left. reflexivity.
  - vm_compute. lia.
  - right. reflexivity.
  - reflexivity.
Defined.

(** ** C6: the header check of [uploadProgram] *)

(** [every] compares what the header has, and only that: each byte present
    must be the expected byte at its index. *)
Lemma every_matches header :
  forall i, every matchesHeader i header = true ->
    forall k value, header !! k = Some value ->
      expectedHeader !! (i + k)%nat = Some value.
Proof.
  induction header as [|v header IH]; intros i H k value Hk; [discriminate Hk|].
  cbn [every] in H. apply andb_true_iff in H as [Hv Hrest].
  destruct k as [|k]; cbn in Hk.
  - injection Hk as <-. rewrite Nat.add_0_r.
    unfold matchesHeader in Hv. now apply bool_decide_eq_true in Hv.
  - replace (i + S k)%nat with (S i + k)%nat by lia. eapply IH; eauto.
Qed.

(** A file that has its 13 first bytes, and not the expected ones, is turned
    down before anything reaches the transport: for its extension, or else
    for its header. *)
Lemma uploadProgram_rejects_bad_header file nxt :
  (13 <= length (File.content file))%nat ->
  take 13 (File.content file) <> expectedHeader ->
  uploadProgram (Some file) nxt = (Throw InvalidExtension, nxt)
  \/ uploadProgram (Some file) nxt = (Throw InvalidFormat, nxt).
Proof.
  intros Hlen Hbad. unfold uploadProgram.
  destruct (endsWith _ _); cbn [negb]; [|now left].
  right.
  change (every _ 0) with (every matchesHeader 0).
  destruct (every matchesHeader 0 (slice (File.content file) 0 (length expectedHeader))) eqn:Hevery;
    [|reflexivity].
  exfalso. apply Hbad.
  pose proof (every_matches _ _ Hevery) as Hall.
  unfold slice in Hall. cbn [length expectedHeader Nat.sub drop] in Hall.
  apply list_eq. intros k.
  destruct (take 13 (File.content file) !! k) as [value|] eqn:Hk.
  - symmetry. exact (Hall k value Hk).
  - apply lookup_ge_None in Hk. rewrite length_take in Hk.
    symmetry. apply lookup_ge_None. cbn. lia.
Qed.

(** C6, the code at two failing inputs: a file that holds only the first two
    bytes of the expected header, and a file that holds nothing. Neither
    starts with the 13 expected bytes, [every] finds no byte that differs,
    and [uploadProgram] goes on to [uploadFile]: the first file is uploaded,
    the second gets as far as the open command before the TypeError of the
    empty write loop. *)
Theorem uploadProgram_accepts_short_files :
  let firmware := Data [0x02; 0x88; 0x00; 0x04; 0x01; 0x1F; 0x01] in
  let answers :=
    [firmware; firmware; firmware; Data [0x02; 0x01; 0x00];
     firmware; Data [0x02; 0x85; 0x87]; Data [0x02; 0x89; 0x00; 0x03]] in
  slice [0x4d; 0x69] 0 13 <> expectedHeader
  /\ uploadProgram (Some (File.mk (js "prog.rxe") [0x4d; 0x69]))
       (connected [] (answers ++ [Data [0x02; 0x83; 0x00; 0x03]]))
     = (Ret tt,
        connected
          [probe; probe; probe; stopCmd; probe; deleteCmd (js "prog.rxe"); fixedOpenCmd;
           [0x01; 0x83; 0x03; 0x4d; 0x69]; [0x01; 0x84; 0x03]] [])
  /\ slice [] 0 13 <> expectedHeader
  /\ uploadProgram (Some (File.mk (js "prog.rxe") [])) (connected [] answers)
     = (Throw JsTypeError,
        connected
          [probe; probe; probe; stopCmd; probe; deleteCmd (js "prog.rxe"); fixedOpenCmd] []).
Proof. cbv zeta. repeat split; try discriminate; now vm_compute. Qed.

(** ** C8: the name field of a find answer *)

(** C8, the code at a failing input: the name field (offsets 4 to 23) holds
    a 20-character name. [_handleFindReturnPacket] slices offsets 4 to 22 and
    decodes 19 characters; the size at offsets 24 to 27 comes out as
    10000. *)
Theorem findReturnPacket_drops_byte_23 :
  slice findAnswer20 4 24 = js "ABCDEFGHIJKLMNOP.rxe"
  /\ _handleFindReturnPacket findAnswer20
     = FindPacket.mk (Some 5) (js "ABCDEFGHIJKLMNOP.rx") 10000
  /\ FindPacket.name (_handleFindReturnPacket findAnswer20) <> js "ABCDEFGHIJKLMNOP.rxe".
Proof. repeat split; try discriminate; now vm_compute. Qed.

(** Whatever the answer, the name comes from the 19 bytes at offsets 4 to 22. *)
Lemma findReturnPacket_name data :
  FindPacket.name (_handleFindReturnPacket data) = stripNul (take 19 (drop 4 data)).
Proof. reflexivity. Qed.

(** *** The size field

    The four bytes at offsets 24 to 27 are put together least significant
    first; [|] and [<<] work on Int32, so the value is read as a signed
    32-bit number. *)

Lemma toInt32_small z : - 2 ^ 31 <= z < 2 ^ 31 -> toInt32 z = z.
Proof. intros H. unfold toInt32. rewrite Z.mod_small; lia. Qed.

Lemma toInt32_eqm z : toInt32 z mod 2 ^ 32 = z mod 2 ^ 32.
Proof.
  unfold toInt32. rewrite Zminus_mod_idemp_l. f_equal. lia.
Qed.

Lemma toInt32_mod z : toInt32 (z mod 2 ^ 32) = toInt32 z.
Proof. unfold toInt32. now rewrite Zplus_mod_idemp_l. Qed.

Lemma lor_mod a b : Z.lor a b mod 2 ^ 32 = Z.lor (a mod 2 ^ 32) (b mod 2 ^ 32).
Proof.
  rewrite <- !Z.land_ones by lia. apply Z.land_lor_distr_l.
Qed.

Lemma js_or_eqm a b : js_or a b mod 2 ^ 32 = Z.lor (a mod 2 ^ 32) (b mod 2 ^ 32).
Proof. unfold js_or. now rewrite toInt32_eqm, lor_mod, !toInt32_eqm. Qed.

Lemma js_or_mod a b : js_or a b = toInt32 (Z.lor (a mod 2 ^ 32) (b mod 2 ^ 32)).
Proof.
  unfold js_or. rewrite <- (toInt32_mod (Z.lor (toInt32 a) (toInt32 b))).
  now rewrite lor_mod, !toInt32_eqm.
Qed.

Lemma testbit_small a n k : 0 <= a < 2 ^ n -> n <= k -> Z.testbit a k = false.
Proof.
  intros Ha Hk. destruct (Z.eq_dec a 0) as [->|Hne]; [apply Z.bits_0|].
  apply Z.bits_above_log2; [lia|].
  assert (Z.log2 a < n) by (apply Z.log2_lt_pow2; lia). lia.
Qed.

Lemma lor_shifted a b n :
  0 <= n -> 0 <= a < 2 ^ n -> Z.lor a (b * 2 ^ n) = a + b * 2 ^ n.
Proof.
  intros Hn Ha.
  assert (Z.land a (b * 2 ^ n) = 0) as Hdisjoint.
  { apply Z.bits_inj'. intros k Hk. rewrite Z.land_spec, Z.bits_0.
    destruct (Z.lt_ge_cases k n).
    - rewrite Z.mul_pow2_bits_low by lia. apply andb_false_r.
    - now rewrite (testbit_small a n k). }
  rewrite <- Z.lxor_lor by exact Hdisjoint.
  symmetry. now apply Z.add_nocarry_lxor.
Qed.

Ltac pow_lia :=
  change (2 ^ 8) with 256; change (2 ^ 16) with 65536;
  change (2 ^ 24) with 16777216; change (2 ^ 32) with 4294967296; lia.

Lemma js_shl_byte b n :
  0 <= b < 256 -> 0 <= n < 32 -> js_shl b n mod 2 ^ 32 = (b * 2 ^ n) mod 2 ^ 32.
Proof.
  intros Hb Hn. unfold js_shl. rewrite toInt32_eqm.
  rewrite (toInt32_small b) by lia. rewrite (Z.mod_small n 32) by lia.
  now rewrite Z.shiftl_mul_pow2 by lia.
Qed.

Lemma le32_bytes (data : Uint8Array) k b0 b1 b2 b3 :
  data !! k = Some b0 -> data !! (k + 1)%nat = Some b1 ->
  data !! (k + 2)%nat = Some b2 -> data !! (k + 3)%nat = Some b3 ->
  0 <= b0 < 256 -> 0 <= b1 < 256 -> 0 <= b2 < 256 -> 0 <= b3 < 256 ->
  le32 data k = toInt32 (b0 + b1 * 2 ^ 8 + b2 * 2 ^ 16 + b3 * 2 ^ 24).
Proof.
  intros H0 H1 H2 H3 R0 R1 R2 R3. unfold le32.
  rewrite H0, H1, H2, H3. cbn [toInt32V].
  rewrite !(toInt32_small b0), !(toInt32_small b1), !(toInt32_small b2), !(toInt32_small b3) by lia.
  rewrite js_or_mod, js_or_eqm, js_or_eqm.
  rewrite !js_shl_byte by lia.
  rewrite !Z.mod_small by pow_lia.
  rewrite (lor_shifted b0 b1 8) by pow_lia.
  rewrite (lor_shifted _ b2 16) by pow_lia.
  rewrite (lor_shifted _ b3 24) by pow_lia.
  reflexivity.
Qed.

Lemma findReturnPacket_size (data : Uint8Array) b0 b1 b2 b3 :
  data !! 24%nat = Some b0 -> data !! 25%nat = Some b1 ->
  data !! 26%nat = Some b2 -> data !! 27%nat = Some b3 ->
  0 <= b0 < 256 -> 0 <= b1 < 256 -> 0 <= b2 < 256 -> 0 <= b3 < 256 ->
  FindPacket.fileSize (_handleFindReturnPacket data)
  = toInt32 (b0 + b1 * 2 ^ 8 + b2 * 2 ^ 16 + b3 * 2 ^ 24).
Proof. intros. now apply (le32_bytes data 24). Qed.


(** * Further properties of the session engine *)

(** ** The connection check and the gate *)

(** X1: [checkConnection] never throws. It answers [true] exactly when the
    session is connected and the next answer of the device carries data,
    whatever the data (the status byte is not read); and it hands over
    nothing, or its one probe. *)
Theorem checkConnection_never_throws nxt :
  (forall e, fst (checkConnection nxt) <> Throw e)
  /\ (fst (checkConnection nxt) = Ret true
      <-> exists sent data answers, nxt = connected sent (Data data :: answers))
  /\ (sentLog (snd (checkConnection nxt)) = sentLog nxt
      \/ sentLog (snd (checkConnection nxt)) = sentLog nxt ++ [probe]).
Proof.
  split; [|split].
  - intros e. destruct nxt as [[[[] sent [|[data| |] answers]]|]]; discriminate.
  - split.
    + destruct nxt as [[[[] sent [|[data| |] answers]]|]]; try discriminate.
      intros _. now exists sent, data, answers.
    + intros (sent & data & answers & ->). reflexivity.
  - destruct nxt as [[[[] sent [|[data| |] answers]]|]]; cbv; auto.
Qed.

(** X2: the five operations that start with the connection check are all
    behind the gate: [setBrickName], [stopProgram], [listFiles],
    [deleteFile] and [uploadFile] (the last one whether a file is given or
    not). A transport failure on the probe reaches the caller as "No device
    connected", not as the transport's own error. *)
Theorem mutating_operations_gated name fileName file stop :
  gated (setBrickName name)
  /\ gated stopProgram
  /\ gated listFiles
  /\ gated (deleteFile fileName)
  /\ gated (uploadFile file stop).
Proof.
  repeat split;
    first [ intros [[usb|]] H; [discriminate H | reflexivity]
          | intros sent answers; reflexivity
          | intros sent [data| |] answers H; [discriminate H | reflexivity..] ].
Qed.

(** X3: the two queries are not behind the gate: they surface what the
    transport reports. Without a transport, or without a device, they throw
    "No device connected" and send nothing; on a connected session their
    command goes out, and an empty transfer is thrown as "No data received",
    a rejected one as the transfer's failure, while a device that stays
    silent leaves the call pending. *)
Theorem queries_surface_transport_errors sent answers :
  getFirmwareVersion (mkNxt None) = (Throw NoDeviceConnected, mkNxt None)
  /\ getDeviceInfo (mkNxt None) = (Throw NoDeviceConnected, mkNxt None)
  /\ getFirmwareVersion (mkNxt (Some (mkUsb false sent answers)))
     = (Throw NoDeviceConnected, mkNxt (Some (mkUsb false sent answers)))
  /\ getDeviceInfo (mkNxt (Some (mkUsb false sent answers)))
     = (Throw NoDeviceConnected, mkNxt (Some (mkUsb false sent answers)))
  /\ getFirmwareVersion (connected sent (NoData :: answers))
     = (Throw NoDataReceived, connected (sent ++ [probe]) answers)
  /\ getDeviceInfo (connected sent (NoData :: answers))
     = (Throw NoDataReceived, connected (sent ++ [[0x01; 0x9b]]) answers)
  /\ getFirmwareVersion (connected sent (LinkError :: answers))
     = (Throw TransferFailed, connected (sent ++ [probe]) answers)
  /\ getDeviceInfo (connected sent (LinkError :: answers))
     = (Throw TransferFailed, connected (sent ++ [[0x01; 0x9b]]) answers)
  /\ getFirmwareVersion (connected sent []) = (Pending, connected (sent ++ [probe]) [])
  /\ getDeviceInfo (connected sent []) = (Pending, connected (sent ++ [[0x01; 0x9b]]) []).
Proof. repeat split. Qed.

(** ** Names and sizes on the wire *)

Lemma toUint8_latin1 c : latin1 c -> toUint8 c = c.
Proof. unfold latin1, toUint8. intros H. apply Z.mod_small. lia. Qed.

Lemma fmap_toUint8_latin1 (str : JsString) :
  Forall latin1 str -> toUint8 <$> str = str.
Proof.
  induction 1 as [|c str Hc _ IH]; [reflexivity|].
  cbn. now rewrite toUint8_latin1, IH.
Qed.

Lemma stripNul_latin1 (str : JsString) : Forall latin1 str -> stripNul str = str.
Proof.
  unfold stripNul, Uint8Array. induction 1 as [|c str Hc _ IH]; [reflexivity|].
  rewrite filter_cons_True by (unfold latin1 in Hc; lia). now rewrite IH.
Qed.

Lemma stripNul_zeros n : stripNul (replicate n 0) = [].
Proof.
  unfold stripNul, Uint8Array. induction n as [|n IH]; [reflexivity|].
  cbn [replicate]. now rewrite filter_cons_False by (intros H; now apply H).
Qed.

Lemma stripNul_padded width (str : JsString) :
  Forall latin1 str -> stripNul (paddedBytes width str) = str.
Proof.
  intros H. rewrite <- (stripNul_latin1 str H) at 2.
  pose proof (stripNul_zeros (width - length str)) as Hzeros.
  unfold paddedBytes, stripNul, Uint8Array in *.
  now rewrite list.filter_app, Hzeros, fmap_toUint8_latin1, app_nil_r.
Qed.

Lemma length_paddedBytes width (str : JsString) :
  (length str <= width)%nat -> length (paddedBytes width str) = width.
Proof.
  intros H. unfold paddedBytes. rewrite length_app, length_fmap, length_replicate. lia.
Qed.

(** The first [k] bytes of a padded field are the field padded to [k],
    as long as the string itself fits in [k]. *)
Lemma take_paddedBytes k width (str : JsString) :
  (length str <= k <= width)%nat ->
  take k (paddedBytes width str) = paddedBytes k str.
Proof.
  intros H. unfold paddedBytes.
  rewrite take_app_ge by (rewrite length_fmap; lia).
  rewrite length_fmap, take_replicate. do 2 f_equal. lia.
Qed.

Lemma drop_after {A} (header rest : list A) n :
  length header = n -> drop n (header ++ rest) = rest.
Proof. intros <-. apply drop_app_length. Qed.

(** X4: for a name of at most 15 code units, on a session whose connection
    check is answered, [setBrickName] hands over the probe and one rename
    command (01 98, then the name stored unit by unit modulo 256 into 15
    zeroed bytes); it resolves when the status byte of the answer is 0 and
    otherwise throws the error that quotes that status. *)
Theorem setBrickName_renames name sent probeR renameR answers :
  (length name <= 15)%nat ->
  setBrickName name (connected sent (Data probeR :: Data renameR :: answers))
  = (if strictNeq0 (renameR !! 2%nat) then Throw (SetNameFailed (renameR !! 2%nat))
     else Ret tt,
     connected (sent ++ [probe; renameCmd name]) answers).
Proof.
  intros Hname. unfold setBrickName. run.
  destruct (Nat.ltb_spec 15 (length name)); [lia|].
  rewrite (bind_run _ _ _ _ _ (paddedName_fits _ _ _ Hname)). run.
  rewrite <- app_assoc.
  destruct (strictNeq0 (renameR !! 2%nat)); reflexivity.
Qed.

Lemma setBrickName_renames_witness :
  setBrickName (js "Robot")
    (connected [] (Data [0x02; 0x88; 0x00; 0x04; 0x01; 0x1F; 0x01]
                   :: Data [0x02; 0x98; 0x00] :: []))
  = (Ret tt, connected ([] ++ [probe; renameCmd (js "Robot")]) []).
Proof. apply (setBrickName_renames (js "Robot") [] _ [0x02; 0x98; 0x00] []). vm_compute. lia. Defined.

(** X5: the name round trip. Take a name of at most 15 code units, all
    between 1 and 255. When the 15 name bytes of its rename command come
    back at offsets 3 to 17 of a device-info answer, [getDeviceInfo] decodes
    the name it was given, without padding. *)
Theorem brick_name_roundtrip name header rest sent answers :
  (length name <= 15)%nat ->
  Forall latin1 name ->
  length header = 3%nat ->
  exists info,
    fst (getDeviceInfo
           (connected sent (Data (header ++ drop 2 (renameCmd name) ++ rest) :: answers)))
    = Ret info
    /\ nxtName info = name.
Proof.
  intros Hname Hlatin Hheader.
  rewrite getDeviceInfo_connected. eexists. split; [reflexivity|].
  cbn [nxtName]. unfold slice.
  change (drop 2 (renameCmd name)) with (paddedBytes 15 name).
  change (18 - 3)%nat with 15%nat.
  rewrite (drop_after header) by exact Hheader.
  rewrite take_app_le by (rewrite length_paddedBytes; lia).
  rewrite take_paddedBytes by lia.
  now apply stripNul_padded.
Qed.

Lemma brick_name_roundtrip_witness :
  exists info,
    fst (getDeviceInfo
           (connected []
              (Data ([0x02; 0x9B; 0x00] ++ drop 2 (renameCmd (js "Robot")) ++ replicate 46 0)
               :: [])))
    = Ret info
    /\ nxtName info = js "Robot".
Proof.
  apply (brick_name_roundtrip (js "Robot") [0x02; 0x9B; 0x00] (replicate 46 0) [] []).
  - vm_compute. lia.
  - repeat constructor.
  - reflexivity.
Defined.

(** X6: the file-name round trip, one character short of the field. Take a
    name of at most 19 code units, all between 1 and 255, laid out in the
    20-byte field as [deleteFile] and [_openLinearWrite] lay it out. When
    that field sits at offsets 4 to 23 of a find answer,
    [_handleFindReturnPacket] decodes the name in full. *)
Theorem file_name_roundtrip name header rest :
  (length name <= 19)%nat ->
  Forall latin1 name ->
  length header = 4%nat ->
  FindPacket.name (_handleFindReturnPacket (header ++ drop 2 (deleteCmd name) ++ rest))
  = name.
Proof.
  intros Hname Hlatin Hheader.
  cbn [_handleFindReturnPacket FindPacket.name]. unfold slice.
  change (drop 2 (deleteCmd name)) with (paddedBytes 20 name).
  change (23 - 4)%nat with 19%nat.
  rewrite (drop_after header) by exact Hheader.
  rewrite take_app_le by (rewrite length_paddedBytes; lia).
  rewrite take_paddedBytes by lia.
  now apply stripNul_padded.
Qed.

Lemma file_name_roundtrip_witness :
  FindPacket.name (_handleFindReturnPacket
    ([0x02; 0x86; 0x00; 0x05] ++ drop 2 (deleteCmd (js "prog.rxe")) ++ [0x10; 0x27; 0x00; 0x00]))
  = js "prog.rxe".
Proof.
  apply (file_name_roundtrip (js "prog.rxe") [0x02; 0x86; 0x00; 0x05] [0x10; 0x27; 0x00; 0x00]).
  - vm_compute. lia.
  - repeat constructor.
  - reflexivity.
Defined.

Lemma toInt32_range z : - 2 ^ 31 <= toInt32 z < 2 ^ 31.
Proof.
  unfold toInt32. pose proof (Z.mod_pos_bound (z + 2 ^ 31) (2 ^ 32)). lia.
Qed.

Lemma toInt32_idem z : toInt32 (toInt32 z) = toInt32 z.
Proof. apply toInt32_small, toInt32_range. Qed.

(** [(v >> k) & 0xff] is byte [k / 8] of the Int32 value of [v]. *)
Lemma js_byte_of size k :
  0 <= k < 32 ->
  toUint8 (js_and (js_shr size k) 0xff) = (toInt32 size / 2 ^ k) mod 256.
Proof.
  intros Hk. unfold js_and, js_shr.
  rewrite toInt32_idem, (Z.mod_small k 32) by lia.
  rewrite Z.shiftr_div_pow2 by lia.
  pose proof (toInt32_range size) as Hsize.
  assert (0 < 2 ^ k) as Hpow by (apply Z.pow_pos_nonneg; lia).
  assert (- 2 ^ 31 <= toInt32 size / 2 ^ k < 2 ^ 31) as Hdiv.
  { split.
    - apply Z.div_le_lower_bound; [lia|]. nia.
    - apply Z.div_lt_upper_bound; [lia|]. nia. }
  rewrite (toInt32_small (toInt32 size / 2 ^ k)) by exact Hdiv.
  change (toInt32 255) with (Z.ones 8). rewrite Z.land_ones by lia.
  change (2 ^ 8) with 256.
  pose proof (Z.mod_pos_bound (toInt32 size / 2 ^ k) 256).
  rewrite toInt32_small by pow_lia.
  unfold toUint8. apply Z.mod_small. lia.
Qed.

Lemma sizeBytes_spec size :
  sizeBytes size
  = [ toInt32 size mod 256;
      (toInt32 size / 2 ^ 8) mod 256;
      (toInt32 size / 2 ^ 16) mod 256;
      (toInt32 size / 2 ^ 24) mod 256 ].
Proof.
  unfold sizeBytes. cbn [fmap list_fmap].
  rewrite <- (js_byte_of size 8), <- (js_byte_of size 16), <- (js_byte_of size 24) by lia.
  f_equal.
  replace (js_and size 255) with (js_and (js_shr size 0) 255).
  - rewrite (js_byte_of size 0) by lia. change (2 ^ 0) with 1. now rewrite Z.div_1_r.
  - unfold js_and, js_shr. change (0 mod 32) with 0.
    now rewrite Z.shiftr_0_r, !toInt32_idem.
Qed.

(** X7: the open command. [_openLinearWrite] turns down a name of more
    than 20 code units before anything is sent. Otherwise it hands over one
    command of 26 bytes: 01 89, the name in a 20-byte zero-padded field, and
    four size bytes; it resolves with byte 3 of the answer when the status byte
    is 0 and throws the error quoting the status otherwise. Read back least
    significant byte first, as [_handleFindReturnPacket] reads sizes, the
    four size bytes give the declared size as an Int32. *)
Theorem openLinearWrite_command name size sent openR answers :
  _openLinearWrite name size (connected sent (Data openR :: answers))
  = (if (20 <? length name)%nat
     then (Throw FilesizeTooLong, connected sent (Data openR :: answers))
     else (if strictNeq0 (openR !! 2%nat)
           then Throw (OpenLinearWriteFailed (openR !! 2%nat))
           else Ret (openR !! 3%nat),
           connected (sent ++ [openCmd name size]) answers))
  /\ length (openCmd name size) = (6 + Nat.max 20 (length name))%nat
  /\ le32 (sizeBytes size) 0 = toInt32 size.
Proof.
  split; [|split].
  - unfold _openLinearWrite.
    destruct (Nat.ltb_spec 20 (length name)) as [Hlong|Hname]; [reflexivity|].
    rewrite (bind_run _ _ _ _ _ (paddedName_fits _ _ _ Hname)). run.
    destruct (strictNeq0 (openR !! 2%nat)); reflexivity.
  - unfold openCmd, paddedBytes, sizeBytes.
    rewrite !length_app, !length_fmap, length_replicate. cbn [length]. lia.
  - rewrite sizeBytes_spec.
    pose proof (toInt32_range size) as Hsize.
    set (s := toInt32 size) in *.
    rewrite (le32_bytes _ 0 (s mod 256) ((s / 2 ^ 8) mod 256)
               ((s / 2 ^ 16) mod 256) ((s / 2 ^ 24) mod 256));
      try reflexivity; try (apply Z.mod_pos_bound; lia).
    transitivity (toInt32 (s mod 2 ^ 32)).
    + f_equal.
      change (2 ^ 8) with 256. change (2 ^ 16) with 65536.
      change (2 ^ 24) with 16777216. change (2 ^ 32) with 4294967296.
      clear. Z.div_mod_to_equations. lia.
    + rewrite toInt32_mod. apply toInt32_small, Hsize.
Qed.

(** ** The 32-bit counters *)

Lemma slice4 (data : Uint8Array) k b0 b1 b2 b3 :
  data !! k = Some b0 -> data !! (k + 1)%nat = Some b1 ->
  data !! (k + 2)%nat = Some b2 -> data !! (k + 3)%nat = Some b3 ->
  slice data k (k + 4) = [b0; b1; b2; b3].
Proof.
  intros H0 H1 H2 H3. unfold slice.
  replace (k + 4 - k)%nat with 4%nat by lia.
  rewrite (drop_S _ _ _ H0).
  replace (S k) with (k + 1)%nat by lia. rewrite (drop_S _ _ _ H1).
  replace (S (k + 1)) with (k + 2)%nat by lia. rewrite (drop_S _ _ _ H2).
  replace (S (k + 2)) with (k + 3)%nat by lia. rewrite (drop_S _ _ _ H3).
  reflexivity.
Qed.

Lemma toInt32_high z : 2 ^ 31 <= z < 2 ^ 32 -> toInt32 z = z - 2 ^ 32.
Proof.
  intros H. unfold toInt32.
  replace (z + 2 ^ 31) with (z - 2 ^ 31 + 1 * 2 ^ 32) by lia.
  rewrite Z.mod_add by lia. rewrite Z.mod_small; lia.
Qed.

Lemma le32_signed (data : Uint8Array) k :
  Forall (fun b => 0 <= b < 256) data ->
  (k + 4 <= length data)%nat ->
  le32 data k = signed32 (slice data k (k + 4)).
Proof.
  intros Hbytes Hlen.
  destruct (lookup_lt_is_Some_2 data k) as [b0 H0]; [lia|].
  destruct (lookup_lt_is_Some_2 data (k + 1)) as [b1 H1]; [lia|].
  destruct (lookup_lt_is_Some_2 data (k + 2)) as [b2 H2]; [lia|].
  destruct (lookup_lt_is_Some_2 data (k + 3)) as [b3 H3]; [lia|].
  pose proof (proj1 (Forall_lookup _ _) Hbytes _ _ H0) as R0.
  pose proof (proj1 (Forall_lookup _ _) Hbytes _ _ H1) as R1.
  pose proof (proj1 (Forall_lookup _ _) Hbytes _ _ H2) as R2.
  pose proof (proj1 (Forall_lookup _ _) Hbytes _ _ H3) as R3.
  cbv beta in R0, R1, R2, R3.
  rewrite (slice4 data k b0 b1 b2 b3) by assumption.
  rewrite (le32_bytes data k b0 b1 b2 b3) by assumption.
  unfold signed32.
  destruct (Z.ltb_spec b3 128).
  - rewrite toInt32_small by pow_lia. lia.
  - rewrite toInt32_high by pow_lia. lia.
Qed.

(** X8: the 32-bit fields are read as signed numbers. For an answer of at
    least 33 bytes, [getDeviceInfo] gives as signal strength and as free
    flash the little-endian value of offsets 25 to 28 and 29 to 32 when the
    top byte is below 128, and that value less 2^32 when it is not; the
    size of a find answer of at least 28 bytes is read the same way from
    offsets 24 to 27. *)
Theorem counters_are_signed (data : Uint8Array) sent answers :
  Forall (fun b => 0 <= b < 256) data ->
  (33 <= length data)%nat ->
  (exists info,
     fst (getDeviceInfo (connected sent (Data data :: answers))) = Ret info
     /\ btSignalStrength info = signed32 (slice data 25 29)
     /\ freeUserFlash info = signed32 (slice data 29 33))
  /\ FindPacket.fileSize (_handleFindReturnPacket data) = signed32 (slice data 24 28).
Proof.
  intros Hbytes Hlen. split.
  - rewrite getDeviceInfo_connected. eexists. split; [reflexivity|].
    cbn [btSignalStrength freeUserFlash].
    split; [apply (le32_signed data 25) | apply (le32_signed data 29)];
      (assumption || lia).
  - cbn [_handleFindReturnPacket FindPacket.fileSize].
    apply (le32_signed data 24); (assumption || lia).
Qed.

Lemma counters_are_signed_witness :
  signed32 (slice ([0x02; 0x9B; 0x00] ++ replicate 26 0 ++ [0x00; 0x00; 0x00; 0x80]) 29 33)
  = - 2 ^ 31
  /\ exists info,
       fst (getDeviceInfo
              (connected []
                 (Data ([0x02; 0x9B; 0x00] ++ replicate 26 0 ++ [0x00; 0x00; 0x00; 0x80]) :: [])))
       = Ret info
       /\ btSignalStrength info
          = signed32 (slice ([0x02; 0x9B; 0x00] ++ replicate 26 0 ++ [0x00; 0x00; 0x00; 0x80]) 25 29)
       /\ freeUserFlash info
          = signed32 (slice ([0x02; 0x9B; 0x00] ++ replicate 26 0 ++ [0x00; 0x00; 0x00; 0x80]) 29 33).
Proof.
  split; [reflexivity|].
  refine (proj1 (counters_are_signed
            ([0x02; 0x9B; 0x00] ++ replicate 26 0 ++ [0x00; 0x00; 0x00; 0x80]) [] [] _ _)).
  - repeat constructor; lia.
  - vm_compute. lia.
Defined.

(** ** Stopping a program, deleting a file *)

(** X9: on a session whose connection check is answered, [stopProgram]
    hands over the probe and the stop command 00 01; it resolves when byte 2
    of the answer is 0, and otherwise throws an error whose [statusCode] is
    that byte ([undefined] when the answer has fewer than three bytes). *)
Theorem stopProgram_reports_status sent probeR stopR answers :
  stopProgram (connected sent (Data probeR :: Data stopR :: answers))
  = (if strictNeq0 (stopR !! 2%nat) then Throw (StopFailed (stopR !! 2%nat)) else Ret tt,
     connected (sent ++ [probe; stopCmd]) answers)
  /\ statusCode (StopFailed (stopR !! 2%nat)) = stopR !! 2%nat
  /\ (strictNeq0 (stopR !! 2%nat) = false <-> stopR !! 2%nat = Some 0).
Proof.
  split; [apply stopProgram_connected | split; [reflexivity|]].
  destruct (stopR !! 2%nat) as [[| |]|]; cbn; split; congruence.
Qed.

(** X10: [deleteFile] does not check the length of the name itself. On a
    session whose connection check is answered, a name of more than 20 code
    units makes the typed-array copy throw a RangeError once the probe is
    out: no delete command is sent and the next answer stays queued. A name
    that fits is sent as 01 85 and the 20-byte zero-padded field; the call
    resolves on status 0 and otherwise throws an error whose [statusCode]
    is byte 2 of the answer. *)
Theorem deleteFile_reports_status fileName sent probeR deleteR answers :
  deleteFile fileName (connected sent (Data probeR :: Data deleteR :: answers))
  = (if (20 <? length fileName)%nat
     then (Throw JsRangeError, connected (sent ++ [probe]) (Data deleteR :: answers))
     else (if strictNeq0 (deleteR !! 2%nat) then Throw (DeleteFailed (deleteR !! 2%nat))
           else Ret tt,
           connected (sent ++ [probe; deleteCmd fileName]) answers))
  /\ statusCode (DeleteFailed (deleteR !! 2%nat)) = deleteR !! 2%nat.
Proof.
  split; [|reflexivity].
  destruct (Nat.ltb_spec 20 (length fileName)) as [Hlong|Hname].
  - unfold deleteFile. run. unfold paddedName.
    destruct (Nat.ltb_spec 20 (length fileName)); [reflexivity | lia].
  - now apply deleteFile_connected.
Qed.

(** ** Uploads that cannot succeed *)

Lemma neverResolves_throw {A} e : neverResolves (@throw A e).
Proof. intros nxt a nxt' H. discriminate H. Qed.

Lemma neverResolves_bind_l {A B} (m : M A) (k : A -> M B) :
  neverResolves m -> neverResolves (bind m k).
Proof.
  intros Hm nxt b nxt' H. unfold bind in H.
  destruct (m nxt) as [[a| |] nxt1] eqn:E; try discriminate H.
  exact (Hm _ _ _ E).
Qed.

Lemma neverResolves_bind_r {A B} (m : M A) (k : A -> M B) :
  (forall a, neverResolves (k a)) -> neverResolves (bind m k).
Proof.
  intros Hk nxt b nxt' H. unfold bind in H.
  destruct (m nxt) as [[a| |] nxt1] eqn:E; try discriminate H.
  exact (Hk _ _ _ _ H).
Qed.

(** With a name of more than 20 code units the delete step of the upload
    ends in the RangeError of the copy, in "No device connected", or never:
    none of these is absorbed. *)
Lemma delete_step_long_name fileName :
  (20 < length fileName)%nat ->
  neverResolves (tryCatch (deleteFile fileName) (absorb 135)).
Proof.
  intros Hlong nxt a nxt' H.
  unfold tryCatch, deleteFile, paddedName in H.
  destruct (Nat.ltb_spec 20 (length fileName)); [|lia].
  destruct nxt as [[[[] sent [|[data| |] answers]]|]]; discriminate H.
Qed.

(** X11: a file whose name has more than 20 code units cannot be uploaded:
    whatever the session and the answers, [uploadFile] throws or stays
    pending, and so does [uploadProgram]. The open command would take the
    fixed name; it is the delete step, run on the file's own name, that
    fails. *)
Theorem upload_long_name_never_resolves file stop :
  (20 < length (File.name file))%nat ->
  neverResolves (uploadFile (Some file) stop)
  /\ neverResolves (uploadProgram (Some file)).
Proof.
  intros Hlong.
  assert (forall stop, neverResolves (uploadFile (Some file) stop)) as Hupload.
  { clear stop. intros stop. unfold uploadFile.
    apply neverResolves_bind_r; intros _.
    apply neverResolves_bind_r; intros ok.
    destruct (negb ok); [apply neverResolves_throw|].
    apply neverResolves_bind_r; intros firmwareVersion.
    destruct (looseNeq _ _); [apply neverResolves_throw|].
    apply neverResolves_bind_r; intros _.
    apply neverResolves_bind_l.
    now apply delete_step_long_name. }
  split; [apply Hupload|].
  unfold uploadProgram.
  destruct (negb (endsWith _ _)); [apply neverResolves_throw|].
  destruct (negb (every _ _ _)); [apply neverResolves_throw|].
  intros nxt a nxt' H. unfold tryCatch in H.
  destruct (uploadFile (Some file) true nxt) as [[[]| |] nxt1] eqn:E; try discriminate H.
  exact (Hupload true _ _ _ E).
Qed.

Lemma upload_long_name_never_resolves_witness :
  neverResolves (uploadFile (Some (File.mk (js "a_very_long_program_name.rxe") [0x4d])) true).
Proof.
  refine (proj1 (upload_long_name_never_resolves
            (File.mk (js "a_very_long_program_name.rxe") [0x4d]) true _)).
  vm_compute. lia.
Defined.

(** X12: the firmware check of [uploadFile]. On a session whose connection
    check is answered, unless byte 6 of the firmware answer is exactly 1
    (another value, or an answer of fewer than seven bytes), the call throws
    "Cannot verify firmware" with two probes sent and nothing else. *)
Theorem uploadFile_firmware_check file stop sent probeR firmwareR answers :
  firmwareR !! 6%nat <> Some 1 ->
  uploadFile (Some file) stop (connected sent (Data probeR :: Data firmwareR :: answers))
  = (Throw CannotVerifyFirmware, connected (sent ++ [probe; probe]) answers).
Proof.
  intros Hfw. unfold uploadFile. run.
  cbn [majorFirmware]. rewrite (looseNeq_true _ _ Hfw).
  now rewrite <- app_assoc.
Qed.

Lemma uploadFile_firmware_check_witness :
  uploadFile (Some (File.mk (js "prog.rxe") [0x4d])) true
    (connected [] (Data [0x02; 0x88; 0x00; 0x04; 0x01; 0x1F; 0x01]
                   :: Data [0x02; 0x88; 0x00; 0x04; 0x01; 0x05; 0x02] :: []))
  = (Throw CannotVerifyFirmware, connected ([] ++ [probe; probe]) []).
Proof.
  apply (uploadFile_firmware_check _ true [] _ [0x02; 0x88; 0x00; 0x04; 0x01; 0x05; 0x02] []).
  vm_compute. discriminate.
Defined.

(** ** Complete and failed transfers *)

Lemma payload_of_writes handle chunks :
  concat (drop 3 <$> (writeCmd handle <$> chunks)) = concat (fst <$> chunks).
Proof.
  induction chunks as [|chunk chunks IH]; [reflexivity|].
  cbn [fmap list_fmap concat]. f_equal. exact IH.
Qed.

(** X13: a complete upload. The file is not empty, its name fits, and every
    step is answered with a passing status. [uploadFile] resolves, and what
    it handed over is, in order: two probes, the stop step when asked for,
    the probe and the delete command for the file's name, the fixed open
    command, one write command per chunk on the handle of the open answer,
    and one close command. The payloads of the write commands, put together,
    are the file content. The answer to the close command is not read. *)
Theorem upload_delivers_content
    file stop sent probeR firmwareR probeR' stopR probeR'' deleteR openR writeR answers :
  firmwareR !! 6%nat = Some 1 ->
  (stop = true -> stopR !! 2%nat = Some 0 \/ stopR !! 2%nat = Some 236) ->
  (length (File.name file) <= 20)%nat ->
  deleteR !! 2%nat = Some 0 \/ deleteR !! 2%nat = Some 135 ->
  openR !! 2%nat = Some 0 ->
  File.content file <> [] ->
  writeR !! 2%nat = Some 0 ->
  let writes := writeCmd (openR !! 3%nat) <$> uploadChunks (File.content file) in
  uploadFile (Some file) stop
    (connected sent
       (Data probeR :: Data firmwareR :: stopAnswers stop probeR' stopR
        ++ Data probeR'' :: Data deleteR :: Data openR :: Data writeR :: answers))
  = (Ret tt,
     connected
       (sent ++ [probe; probe] ++ stopCmds stop
        ++ [probe; deleteCmd (File.name file); fixedOpenCmd]
        ++ writes ++ [closeCmd (openR !! 3%nat)])
       answers)
  /\ concat (drop 3 <$> writes) = File.content file.
Proof.
  intros Hfw Hstop Hname Hdel Hopen Hdata Hwrite writes. split.
  - now apply uploadFile_success.
  - unfold writes. rewrite payload_of_writes.
    unfold uploadChunks. rewrite chunksFrom_concat by lia. reflexivity.
Qed.

Lemma upload_delivers_content_witness :
  uploadFile (Some (File.mk (js "prog.rxe") (replicate 62 7))) false
    (connected []
       (Data [0x02; 0x88; 0x00; 0x04; 0x01; 0x1F; 0x01]
        :: Data [0x02; 0x88; 0x00; 0x04; 0x01; 0x1F; 0x01]
        :: stopAnswers false [] []
        ++ Data [0x02; 0x88; 0x00; 0x04; 0x01; 0x1F; 0x01]
        :: Data [0x02; 0x85; 0x87]
        :: Data [0x02; 0x89; 0x00; 0x03]
        :: Data [0x02; 0x83; 0x00; 0x03] :: []))
  = (Ret tt,
     connected
       ([] ++ [probe; probe] ++ stopCmds false
        ++ [probe; deleteCmd (js "prog.rxe"); fixedOpenCmd]
        ++ (writeCmd (Some 3) <$> uploadChunks (replicate 62 7))
        ++ [closeCmd (Some 3)])
       []).
Proof.
  refine (proj1 (upload_delivers_content
            (File.mk (js "prog.rxe") (replicate 62 7)) false [] _ _ [] [] _
            [0x02; 0x85; 0x87] [0x02; 0x89; 0x00; 0x03] [0x02; 0x83; 0x00; 0x03] []
            _ _ _ _ _ _ _)).
  - reflexivity.
  - intros H. discriminate H.
  - vm_compute. lia.
  - right. reflexivity.
  - reflexivity.
  - discriminate.
  - reflexivity.
Defined.

(** X14: a failed transfer leaves the handle open. With the same run up to
    the open step, when the answer to the last write carries a status other
    than 0, [uploadFile] throws the write error quoting that status, and the
    write commands are the last buffers it handed over: no close command
    follows. *)
Theorem upload_write_failure_leaves_handle_open
    file stop sent probeR firmwareR probeR' stopR probeR'' deleteR openR writeR answers :
  firmwareR !! 6%nat = Some 1 ->
  (stop = true -> stopR !! 2%nat = Some 0 \/ stopR !! 2%nat = Some 236) ->
  (length (File.name file) <= 20)%nat ->
  deleteR !! 2%nat = Some 0 \/ deleteR !! 2%nat = Some 135 ->
  openR !! 2%nat = Some 0 ->
  File.content file <> [] ->
  writeR !! 2%nat <> Some 0 ->
  uploadFile (Some file) stop
    (connected sent
       (Data probeR :: Data firmwareR :: stopAnswers stop probeR' stopR
        ++ Data probeR'' :: Data deleteR :: Data openR :: Data writeR :: answers))
  = (Throw (WriteFailed (writeR !! 2%nat)),
     connected
       (sent ++ [probe; probe] ++ stopCmds stop
        ++ [probe; deleteCmd (File.name file); fixedOpenCmd]
        ++ (writeCmd (openR !! 3%nat) <$> uploadChunks (File.content file)))
       answers).
Proof.
  intros Hfw Hstop Hname Hdel Hopen Hdata Hwrite.
  rewrite uploadFile_past_stop by assumption.
  rewrite deleteAndAfter_run by assumption.
  rewrite openAndTransfer_run by assumption.
  rewrite transfer_run by assumption.
  rewrite (proj2 (strictNeq0_true _) Hwrite).
  rewrite app_nil_r, <- !app_assoc. reflexivity.
Qed.

Lemma upload_write_failure_leaves_handle_open_witness :
  uploadFile (Some (File.mk (js "prog.rxe") [0x4d; 0x69])) false
    (connected []
       (Data [0x02; 0x88; 0x00; 0x04; 0x01; 0x1F; 0x01]
        :: Data [0x02; 0x88; 0x00; 0x04; 0x01; 0x1F; 0x01]
        :: stopAnswers false [] []
        ++ Data [0x02; 0x88; 0x00; 0x04; 0x01; 0x1F; 0x01]
        :: Data [0x02; 0x85; 0x00]
        :: Data [0x02; 0x89; 0x00; 0x03]
        :: Data [0x02; 0x83; 0xFB; 0x03] :: []))
  = (Throw (WriteFailed (Some 0xFB)),
     connected
       ([] ++ [probe; probe] ++ stopCmds false
        ++ [probe; deleteCmd (js "prog.rxe"); fixedOpenCmd]
        ++ (writeCmd (Some 3) <$> uploadChunks [0x4d; 0x69]))
       []).
Proof.
  refine (upload_write_failure_leaves_handle_open
            (File.mk (js "prog.rxe") [0x4d; 0x69]) false [] _ _ [] [] _
            [0x02; 0x85; 0x00] [0x02; 0x89; 0x00; 0x03] [0x02; 0x83; 0xFB; 0x03] []
            _ _ _ _ _ _ _).
  - reflexivity.
  - intros H. discriminate H.
  - vm_compute. lia.
  - left. reflexivity.
  - reflexivity.
  - discriminate.
  - vm_compute. discriminate.
Defined.

(** ** The errors of an upload *)

Lemma throwsOnly_ret {A} P (a : A) : throwsOnly P (ret a).
Proof. intros nxt e nxt' H. discriminate H. Qed.

Lemma throwsOnly_pending {A} P : throwsOnly P (fun nxt => (@Pending A, nxt)).
Proof. intros nxt e nxt' H. discriminate H. Qed.

Lemma throwsOnly_throw {A} (P : Error -> Prop) e : P e -> throwsOnly P (@throw A e).
Proof. intros He nxt e' nxt' H. injection H as <- _. exact He. Qed.

Lemma throwsOnly_bind {A B} P (m : M A) (k : A -> M B) :
  throwsOnly P m -> (forall a, throwsOnly P (k a)) -> throwsOnly P (bind m k).
Proof.
  intros Hm Hk nxt e nxt' H. unfold bind in H.
  destruct (m nxt) as [[a|e1|] nxt1] eqn:E.
  - exact (Hk _ _ _ _ H).
  - injection H as <- _. exact (Hm _ _ _ E).
  - discriminate H.
Qed.

Lemma throwsOnly_bind_yields {A B} P (Q : A -> Prop) (m : M A) (k : A -> M B) :
  throwsOnly P m -> yields Q m -> (forall a, Q a -> throwsOnly P (k a)) ->
  throwsOnly P (bind m k).
Proof.
  intros Hm HQ Hk nxt e nxt' H. unfold bind in H.
  destruct (m nxt) as [[a|e1|] nxt1] eqn:E.
  - exact (Hk _ (HQ _ _ _ E) _ _ _ H).
  - injection H as <- _. exact (Hm _ _ _ E).
  - discriminate H.
Qed.

Lemma throwsOnly_tryCatch {A} P Q (m : M A) h :
  throwsOnly Q m -> (forall e, Q e -> throwsOnly P (h e)) -> throwsOnly P (tryCatch m h).
Proof.
  intros Hm Hh nxt e nxt' H. unfold tryCatch in H.
  destruct (m nxt) as [[a|e1|] nxt1] eqn:E; try discriminate H.
  exact (Hh _ (Hm _ _ _ E) _ _ _ H).
Qed.

Section Wire.
Variable P : Error -> Prop.
Hypothesis wire : forall e, wireError e -> P e.

Lemma throwsOnly_requireDevice : throwsOnly P requireDevice.
Proof.
  intros [[usb|]] e nxt' H; [discriminate H|].
  injection H as <- _. now apply wire.
Qed.

Lemma throwsOnly_sendCommand command : throwsOnly P (sendCommand command).
Proof.
  intros [[[[] sent answers]|]] e nxt' H; try discriminate H;
    injection H as <- _; now apply wire.
Qed.

Lemma throwsOnly_receiveData : throwsOnly P receiveData.
Proof.
  intros [[[[] sent [|[data| |] answers]]|]] e nxt' H; try discriminate H;
    injection H as <- _; now apply wire.
Qed.

Lemma throwsOnly_paddedName width str : throwsOnly P (paddedName width str).
Proof.
  unfold paddedName. destruct (_ <? _)%nat;
    [apply throwsOnly_throw; now apply wire | apply throwsOnly_ret].
Qed.

Lemma throwsOnly_getFirmwareVersion : throwsOnly P getFirmwareVersion.
Proof.
  unfold getFirmwareVersion.
  apply throwsOnly_bind; [apply throwsOnly_requireDevice | intros _].
  apply throwsOnly_bind; [apply throwsOnly_sendCommand | intros _].
  apply throwsOnly_bind; [apply throwsOnly_receiveData | intros data].
  apply throwsOnly_ret.
Qed.

Lemma throwsOnly_checkConnection : throwsOnly P checkConnection.
Proof.
  intros nxt e nxt' H.
  destruct (checkConnection_total nxt) as [nxt1 [E|[E|E]]];
    rewrite E in H; discriminate H.
Qed.
End Wire.

Lemma wire_uploadError e : wireError e -> uploadError e.
Proof. destruct e; cbn; tauto. Qed.

Lemma strictNeq0_false v : strictNeq0 v = false -> v = Some 0.
Proof. destruct v as [[| |]|]; cbn; congruence. Qed.

Lemma looseNeq_false v n : looseNeq v n = false -> v = Some n.
Proof.
  destruct v as [z|]; [|discriminate]. cbn.
  destruct (Z.eqb_spec z n); [congruence | discriminate].
Qed.

(** What [stopProgram] throws, before the upload's handler sees it. *)
Lemma throwsOnly_stopProgram :
  throwsOnly (fun e => uploadError e \/ e = StopFailed (Some 236)) stopProgram.
Proof.
  assert (forall e, wireError e -> uploadError e \/ e = StopFailed (Some 236)) as Hw
    by (intros e He; left; now apply wire_uploadError).
  unfold stopProgram.
  apply throwsOnly_bind; [now apply throwsOnly_requireDevice | intros _].
  apply throwsOnly_bind; [now apply throwsOnly_checkConnection | intros ok].
  destruct (negb ok); [apply throwsOnly_throw; now left|].
  apply throwsOnly_bind; [now apply throwsOnly_sendCommand | intros _].
  apply throwsOnly_bind; [now apply throwsOnly_receiveData | intros data].
  cbv zeta. destruct (strictNeq0 (data !! 2%nat)) eqn:Hst; [|apply throwsOnly_ret].
  apply throwsOnly_throw. apply strictNeq0_true in Hst.
  destruct (decide (data !! 2%nat = Some 236)) as [->|Hne]; [now right|].
  left. cbn. tauto.
Qed.

Lemma throwsOnly_deleteFile fileName :
  throwsOnly (fun e => uploadError e \/ e = DeleteFailed (Some 135)) (deleteFile fileName).
Proof.
  assert (forall e, wireError e -> uploadError e \/ e = DeleteFailed (Some 135)) as Hw
    by (intros e He; left; now apply wire_uploadError).
  unfold deleteFile.
  apply throwsOnly_bind; [now apply throwsOnly_requireDevice | intros _].
  apply throwsOnly_bind; [now apply throwsOnly_checkConnection | intros ok].
  destruct (negb ok); [apply throwsOnly_throw; now left|].
  apply throwsOnly_bind; [now apply throwsOnly_paddedName | intros fileNameArray].
  apply throwsOnly_bind; [now apply throwsOnly_sendCommand | intros _].
  apply throwsOnly_bind; [now apply throwsOnly_receiveData | intros data].
  destruct (strictNeq0 (data !! 2%nat)) eqn:Hst; [|apply throwsOnly_ret].
  apply throwsOnly_throw. apply strictNeq0_true in Hst.
  destruct (decide (data !! 2%nat = Some 135)) as [->|Hne]; [now right|].
  left. cbn. tauto.
Qed.

(** The handlers let through what they do not absorb, unchanged. *)
Lemma throwsOnly_absorb code (absorbed : Error) e :
  statusCode absorbed = Some code ->
  uploadError e \/ e = absorbed ->
  throwsOnly uploadError (absorb code e : M unit).
Proof.
  intros Hcode [He| ->].
  - destruct (looseNeq (statusCode e) code); [now apply throwsOnly_throw | apply throwsOnly_ret].
  - rewrite Hcode. cbn. rewrite Z.eqb_refl. apply throwsOnly_ret.
Qed.

Lemma throwsOnly_openFixed :
  throwsOnly uploadError (_openLinearWrite (js "Untitled1.rxe") 244).
Proof.
  unfold _openLinearWrite.
  change (20 <? length (js "Untitled1.rxe"))%nat with false. cbv iota.
  apply throwsOnly_bind; [apply throwsOnly_paddedName, wire_uploadError | intros nameArray].
  apply throwsOnly_bind; [apply throwsOnly_sendCommand, wire_uploadError | intros _].
  apply throwsOnly_bind; [apply throwsOnly_receiveData, wire_uploadError | intros data].
  destruct (strictNeq0 (data !! 2%nat)) eqn:Hst; [|apply throwsOnly_ret].
  apply throwsOnly_throw. cbn. now apply strictNeq0_true.
Qed.

Lemma throwsOnly_write handle chunk requireResponse :
  (length chunk <= 61)%nat ->
  throwsOnly uploadError (_write handle chunk requireResponse).
Proof.
  intros Hchunk. unfold _write.
  destruct (Nat.ltb_spec (64 - 3) (length chunk)); [lia|].
  apply throwsOnly_bind; [apply throwsOnly_sendCommand, wire_uploadError | intros _].
  destruct requireResponse; [|apply throwsOnly_ret].
  apply throwsOnly_bind; [apply throwsOnly_receiveData, wire_uploadError | intros data].
  destruct (strictNeq0 (data !! 2%nat)) eqn:Hst; [|apply throwsOnly_ret].
  apply throwsOnly_throw. cbn. now apply strictNeq0_true.
Qed.

Lemma yields_write handle chunk requireResponse :
  yields passed (_write handle chunk requireResponse).
Proof.
  intros nxt response nxt' H. unfold _write in H.
  destruct (_ <? _)%nat; [discriminate H|].
  unfold bind in H.
  destruct (sendCommand _ nxt) as [[[]| |] nxt1]; try discriminate H.
  destruct requireResponse; [|injection H as <- _; exact I].
  destruct (receiveData nxt1) as [[data| |] nxt2]; try discriminate H.
  destruct (strictNeq0 (data !! 2%nat)) eqn:Hst; [discriminate H|].
  injection H as <- _. cbn. now apply strictNeq0_false.
Qed.

Lemma length_slice_stride (data : Uint8Array) i :
  (length (slice data i (i + packetChunkSize - 3)) <= 61)%nat.
Proof. rewrite slice_stride, length_take. lia. Qed.

Lemma throwsOnly_writeLoop turns :
  forall handle data i response,
    throwsOnly uploadError (writeLoop turns handle data i response).
Proof.
  induction turns as [|turns IH]; intros handle data i response; cbn [writeLoop];
    destruct (i <? length data)%nat;
    try apply throwsOnly_ret; try apply throwsOnly_pending.
  apply throwsOnly_bind; [apply throwsOnly_write, length_slice_stride | intros r; apply IH].
Qed.

Lemma yields_writeLoop turns :
  forall handle data i response,
    passed response -> yields passed (writeLoop turns handle data i response).
Proof.
  induction turns as [|turns IH]; intros handle data i response Hresp nxt r nxt' H;
    cbn [writeLoop] in H; destruct (i <? length data)%nat;
    try (injection H as <- _; exact Hresp); try discriminate H.
  unfold bind in H.
  destruct (_write _ _ _ nxt) as [[response'| |] nxt1] eqn:E; try discriminate H.
  exact (IH _ _ _ _ (yields_write _ _ _ _ _ _ E) _ _ _ H).
Qed.

(** X15: every error [uploadFile] ends in is one of: the transport's and the
    runtime's own errors, "No file selected", "Cannot verify firmware", a
    stop error quoting a status other than 0 and 236, a delete error quoting
    a status other than 0 and 135, an open or a write error quoting a status
    other than 0. It never ends in "Failed to upload file": the check after
    the write loop sees only answers whose status [_write] has already found
    to be 0. Nor in "Data too long" or "Filesize too long": the chunks and
    the fixed name always fit. *)
Theorem uploadFile_errors file stop nxt e nxt' :
  uploadFile file stop nxt = (Throw e, nxt') -> uploadError e.
Proof.
  revert nxt e nxt'. change (throwsOnly uploadError (uploadFile file stop)).
  unfold uploadFile.
  apply throwsOnly_bind; [apply throwsOnly_requireDevice, wire_uploadError | intros _].
  apply throwsOnly_bind; [apply throwsOnly_checkConnection | intros ok].
  destruct (negb ok); [now apply throwsOnly_throw|].
  destruct file as [file|]; [|now apply throwsOnly_throw].
  apply throwsOnly_bind; [apply throwsOnly_getFirmwareVersion, wire_uploadError | intros fw].
  destruct (looseNeq _ _); [now apply throwsOnly_throw|].
  apply throwsOnly_bind; [|intros _].
  { destruct stop; [|apply throwsOnly_ret].
    eapply throwsOnly_tryCatch; [apply throwsOnly_stopProgram|].
    intros e He. now apply (throwsOnly_absorb 236 (StopFailed (Some 236))). }
  apply throwsOnly_bind; [|intros _].
  { eapply throwsOnly_tryCatch; [apply throwsOnly_deleteFile|].
    intros e He. now apply (throwsOnly_absorb 135 (DeleteFailed (Some 135))). }
  apply throwsOnly_bind; [apply throwsOnly_openFixed | intros handle].
  apply (throwsOnly_bind_yields _ passed);
    [apply throwsOnly_writeLoop | now apply yields_writeLoop |].
  intros [response|] Hresp; [|now apply throwsOnly_throw].
  cbn in Hresp. rewrite Hresp. cbn [strictNeq0].
  apply throwsOnly_sendCommand, wire_uploadError.
Qed.

Lemma uploadFile_errors_witness : uploadError CannotVerifyFirmware.
Proof.
  apply (uploadFile_errors (Some (File.mk (js "prog.rxe") [0x4d])) true
           (connected [] [Data [0x02; 0x88; 0x00]; Data [0x02; 0x88; 0x00]])
           CannotVerifyFirmware (connected [probe; probe] [])).
  reflexivity.
Defined.

(** ** What an upload leaves on the wire *)

(** X16: [uploadFile] sends its close command and returns without reading
    the answer. After a complete upload, the answer the transport delivers
    next, on a device that answers every command of class 01 the answer to
    that close command, is taken by the following call as the answer to its
    own command: a [getFirmwareVersion] run right after the upload decodes
    bytes 3 to 6 of that answer as the firmware version. *)
Theorem upload_then_query_reads_stale_answer
    file stop sent probeR firmwareR probeR' stopR probeR'' deleteR openR writeR
    staleR answers :
  firmwareR !! 6%nat = Some 1 ->
  (stop = true -> stopR !! 2%nat = Some 0 \/ stopR !! 2%nat = Some 236) ->
  (length (File.name file) <= 20)%nat ->
  deleteR !! 2%nat = Some 0 \/ deleteR !! 2%nat = Some 135 ->
  openR !! 2%nat = Some 0 ->
  File.content file <> [] ->
  writeR !! 2%nat = Some 0 ->
  (uploadFile (Some file) stop ;;; getFirmwareVersion)
    (connected sent
       (Data probeR :: Data firmwareR :: stopAnswers stop probeR' stopR
        ++ Data probeR'' :: Data deleteR :: Data openR :: Data writeR
        :: Data staleR :: answers))
  = (Ret {| minorProtocol := staleR !! 3%nat;
            majorProtocol := staleR !! 4%nat;
            minorFirmware := staleR !! 5%nat;
            majorFirmware := staleR !! 6%nat |},
     connected
       ((sent ++ [probe; probe] ++ stopCmds stop
         ++ [probe; deleteCmd (File.name file); fixedOpenCmd]
         ++ (writeCmd (openR !! 3%nat) <$> uploadChunks (File.content file))
         ++ [closeCmd (openR !! 3%nat)])
        ++ [probe])
       answers).
Proof.
  intros Hfw Hstop Hname Hdel Hopen Hdata Hwrite.
  erewrite bind_run by (now apply uploadFile_success).
  apply getFirmwareVersion_connected.
Qed.

Lemma upload_then_query_reads_stale_answer_witness :
  fst ((uploadFile (Some (File.mk (js "prog.rxe") [0x4d; 0x69])) false ;;; getFirmwareVersion)
    (connected []
       (Data [0x02; 0x88; 0x00; 0x04; 0x01; 0x1F; 0x01]
        :: Data [0x02; 0x88; 0x00; 0x04; 0x01; 0x1F; 0x01]
        :: stopAnswers false [] []
        ++ Data [0x02; 0x88; 0x00; 0x04; 0x01; 0x1F; 0x01]
        :: Data [0x02; 0x85; 0x00]
        :: Data [0x02; 0x89; 0x00; 0x03]
        :: Data [0x02; 0x83; 0x00; 0x03]
        :: Data [0x02; 0x84; 0x00; 0x03]
        :: [Data [0x02; 0x88; 0x00; 0x04; 0x01; 0x1F; 0x01]])))
  = Ret (mkFirmwareVersion (Some 3) None None None).
Proof.
  rewrite (upload_then_query_reads_stale_answer
             (File.mk (js "prog.rxe") [0x4d; 0x69]) false [] _ _ [] [] _
             [0x02; 0x85; 0x00] [0x02; 0x89; 0x00; 0x03] [0x02; 0x83; 0x00; 0x03]
             [0x02; 0x84; 0x00; 0x03] _).
  - reflexivity.
  - reflexivity.
  - intros H. discriminate H.
  - vm_compute. lia.
  - left. reflexivity.
  - reflexivity.
  - discriminate.
  - reflexivity.
Defined.

(** ** Listings that do not end *)

Lemma bind_pending {A B} (m : M A) (k : A -> M B) nxt nxt' :
  m nxt = (Pending, nxt') -> bind m k nxt = (Pending, nxt').
Proof. intros H. unfold bind. now rewrite H. Qed.

(** The loop walks through all the good answers at the head of the queue. *)
Lemma findNextLoop_prefix nexts :
  forall turns handle files sent tail,
    Forall (fun data => data !! 2%nat = Some 0) nexts ->
    findNextLoop (length nexts + turns) handle files
      (connected sent ((Data <$> nexts) ++ tail))
    = findNextLoop turns handle (files ++ (decodeEntry <$> nexts))
        (connected (sent ++ replicate (length nexts) (findNextCmd handle)) tail).
Proof.
  induction nexts as [|data nexts IH]; intros turns handle files sent tail Hok.
  - cbn. now rewrite !app_nil_r.
  - inversion Hok as [|? ? Hdata Hrest]; subst.
    cbn [length Nat.add findNextLoop fmap list_fmap app].
    rewrite (bind_run _ _ _ _ _ (sendCommand_connected _ _ _)).
    rewrite (bind_run _ _ _ _ _ (receiveData_connected _ _ _)).
    rewrite Hdata. cbn [strictNeq0 negb].
    change (list_fmap _ _ Data nexts) with (Data <$> nexts).
    rewrite IH by exact Hrest.
    cbn [replicate]. now rewrite <- !app_assoc.
Qed.

Lemma listFiles_loop sent probeR first nexts tail :
  Forall (fun data => data !! 2%nat = Some 0) nexts ->
  listFiles (connected sent (Data probeR :: Data first :: (Data <$> nexts) ++ tail))
  = (files <- findNextLoop (S (length tail)) (first !! 3%nat)
                ([decodeEntry first] ++ (decodeEntry <$> nexts)) ;;
     sendCommand [0x01; 0x84; toUint8V (first !! 3%nat)] ;;;
     data <- receiveData ;;
     if strictNeq0 (data !! 2%nat) then throw (CloseFailed (data !! 2%nat))
     else ret files)
      (connected (sent ++ [probe; [0x01; 0x86] ++ wildcard]
                  ++ replicate (length nexts) (findNextCmd (first !! 3%nat))) tail).
Proof.
  intros Hok. unfold listFiles. run.
  unfold bind at 1. unfold bind at 2.
  unfold replies, connected at 1. cbn [connectedDevice incoming].
  rewrite length_app, length_fmap.
  replace (S (length nexts + length tail)) with (length nexts + S (length tail))%nat by lia.
  rewrite findNextLoop_prefix by exact Hok.
  rewrite <- !app_assoc. reflexivity.
Qed.

(** X17: [listFiles] returns only after a find-next answer with a status
    other than 0. While every answer carries status 0 it keeps asking: when
    the queued answers are all of that kind, it has sent one find-next per
    answer and one more, and the call is pending on the answer to that
    last one. No close command has been sent. *)
Theorem listFiles_keeps_asking sent probeR first nexts :
  Forall (fun data => data !! 2%nat = Some 0) nexts ->
  listFiles (connected sent (Data probeR :: Data first :: (Data <$> nexts)))
  = (Pending,
     connected (sent ++ [probe; [0x01; 0x86] ++ wildcard]
                ++ replicate (S (length nexts)) (findNextCmd (first !! 3%nat))) []).
Proof.
  intros Hok.
  rewrite <- (app_nil_r (Data <$> nexts)).
  rewrite listFiles_loop by exact Hok.
  erewrite bind_pending; cycle 1.
  { cbn [length findNextLoop].
    rewrite (bind_run _ _ _ _ _ (sendCommand_connected _ _ _)).
    reflexivity. }
  replace (S (length nexts)) with (length nexts + 1)%nat by lia.
  rewrite replicate_add. cbn [replicate]. now rewrite <- !app_assoc.
Qed.

Lemma listFiles_keeps_asking_witness :
  listFiles (connected []
    (Data [0x02; 0x88; 0x00; 0x04; 0x01; 0x1F; 0x01]
     :: Data [0x02; 0x86; 0x00; 0x05]
     :: (Data <$> [[0x02; 0x87; 0x00; 0x05]; [0x02; 0x87; 0x00; 0x05]])))
  = (Pending,
     connected ([] ++ [probe; [0x01; 0x86] ++ wildcard]
                ++ replicate 3 (findNextCmd (Some 5))) []).
Proof.
  apply (listFiles_keeps_asking [] _ [0x02; 0x86; 0x00; 0x05]
           [[0x02; 0x87; 0x00; 0x05]; [0x02; 0x87; 0x00; 0x05]]).
  repeat constructor.
Defined.

(** X18: a transfer that fails in the middle of a listing ends it at once.
    After any number of good find-next answers, an empty or a rejected
    transfer is thrown as the transport's error: the entries decoded so far
    are lost, and the last buffer handed over is a find-next command, so the
    handle is not closed. *)
Theorem listFiles_transfer_failure sent probeR first nexts r answers :
  Forall (fun data => data !! 2%nat = Some 0) nexts ->
  noAnswer r = true ->
  listFiles (connected sent (Data probeR :: Data first :: (Data <$> nexts) ++ r :: answers))
  = (Throw (transferError r),
     connected (sent ++ [probe; [0x01; 0x86] ++ wildcard]
                ++ replicate (S (length nexts)) (findNextCmd (first !! 3%nat))) answers).
Proof.
  intros Hok Hr.
  rewrite listFiles_loop by exact Hok.
  destruct r as [data| |]; [discriminate Hr | |];
    (erewrite bind_throw;
     [| cbn [length findNextLoop];
        rewrite (bind_run _ _ _ _ _ (sendCommand_connected _ _ _)); reflexivity]);
    replace (S (length nexts)) with (length nexts + 1)%nat by lia;
    rewrite replicate_add; cbn [replicate]; now rewrite <- !app_assoc.
Qed.

Lemma listFiles_transfer_failure_witness :
  listFiles (connected []
    (Data [0x02; 0x88; 0x00; 0x04; 0x01; 0x1F; 0x01]
     :: Data [0x02; 0x86; 0x00; 0x05]
     :: (Data <$> [[0x02; 0x87; 0x00; 0x05]]) ++ NoData :: [Data [0x02; 0x84; 0x00; 0x05]]))
  = (Throw (transferError NoData),
     connected ([] ++ [probe; [0x01; 0x86] ++ wildcard]
                ++ replicate 2 (findNextCmd (Some 5))) [Data [0x02; 0x84; 0x00; 0x05]]).
Proof.
  apply (listFiles_transfer_failure [] _ [0x02; 0x86; 0x00; 0x05]
           [[0x02; 0x87; 0x00; 0x05]] NoData).
  - repeat constructor.
  - reflexivity.
Defined.

(** ** How many packets *)

Lemma packets_step n : (0 < n)%nat -> ((n + 60) / 61 = S ((n - 61 + 60) / 61))%nat.
Proof.
  intros Hn. destruct (Nat.le_gt_cases n 61) as [Hle|Hgt].
  - replace (n - 61)%nat with 0%nat by lia.
    rewrite (Nat.div_small (0 + 60) 61) by lia.
    symmetry. apply (Nat.div_unique (n + 60) 61 1 (n - 1)); lia.
  - replace (n + 60)%nat with ((n - 61 + 60) + 1 * 61)%nat by lia.
    rewrite Nat.div_add by lia. lia.
Qed.

Lemma chunksFrom_count turns :
  forall (data : Uint8Array) i,
    (length data - i <= turns)%nat ->
    length (chunksFrom turns data i) = ((length data - i + 60) / 61)%nat.
Proof.
  induction turns as [|turns IH]; intros data i Hturns.
  - rewrite chunksFrom_past_end by lia.
    replace (length data - i)%nat with 0%nat by lia. reflexivity.
  - destruct (Nat.lt_ge_cases i (length data)) as [Hlt|Hge].
    + rewrite chunksFrom_step by exact Hlt. cbn [length].
      rewrite IH by lia. rewrite (packets_step (length data - i)) by lia.
      do 3 f_equal. lia.
    + rewrite chunksFrom_past_end by lia.
      replace (length data - i)%nat with 0%nat by lia. reflexivity.
Qed.

Lemma chunksFrom_full turns :
  forall (data : Uint8Array) i,
    Forall (fun chunk => chunk.2 = true \/ length chunk.1 = 61%nat) (chunksFrom turns data i).
Proof.
  induction turns as [|turns IH]; intros data i.
  - cbn [chunksFrom]. destruct (i <? length data)%nat; constructor.
  - destruct (Nat.lt_ge_cases i (length data)) as [Hlt|Hge].
    + rewrite chunksFrom_step by exact Hlt. constructor; [|apply IH].
      cbn [fst snd]. destruct (Nat.leb_spec (length data) (i + 61)); [now left|].
      right. rewrite length_take, length_drop. lia.
    + rewrite chunksFrom_past_end by lia. constructor.
Qed.

(** X19: the number of write packets. A content of [n] bytes is cut into
    [n / 61] rounded up chunks (none for an empty content), and every chunk
    except the one flagged as last holds exactly 61 bytes. *)
Theorem upload_packet_count (data : Uint8Array) :
  length (uploadChunks data) = ((length data + 60) / 61)%nat
  /\ Forall (fun chunk => chunk.2 = true \/ length chunk.1 = 61%nat) (uploadChunks data).
Proof.
  unfold uploadChunks. split.
  - rewrite chunksFrom_count by lia. do 2 f_equal. lia.
  - apply chunksFrom_full.
Qed.

(** ** What [uploadProgram] lets through *)

Lemma lower_dot c : (if (65 <=? c) && (c <=? 90) then c + 32 else c) = 46 <-> c = 46.
Proof. destruct (Z.leb_spec 65 c), (Z.leb_spec c 90); cbn; lia. Qed.

Lemma lower_letter c l :
  97 <= l <= 122 ->
  (if (65 <=? c) && (c <=? 90) then c + 32 else c) = l <-> c = l - 32 \/ c = l.
Proof. intros Hl. destruct (Z.leb_spec 65 c), (Z.leb_spec c 90); cbn; lia. Qed.

Lemma rxe_units d r x e :
  [if (65 <=? d) && (d <=? 90) then d + 32 else d;
   if (65 <=? r) && (r <=? 90) then r + 32 else r;
   if (65 <=? x) && (x <=? 90) then x + 32 else x;
   if (65 <=? e) && (e <=? 90) then e + 32 else e] = [46; 114; 120; 101]
  <-> d = 46 /\ (r = 82 \/ r = 114) /\ (x = 88 \/ x = 120) /\ (e = 69 \/ e = 101).
Proof.
  pose proof (lower_dot d) as Ld.
  assert (97 <= 114 <= 122) as B1 by lia. pose proof (lower_letter r 114 B1) as Lr.
  assert (97 <= 120 <= 122) as B2 by lia. pose proof (lower_letter x 120 B2) as Lx.
  assert (97 <= 101 <= 122) as B3 by lia. pose proof (lower_letter e 101 B3) as Le.
  change (114 - 32) with 82 in Lr. change (120 - 32) with 88 in Lx.
  change (101 - 32) with 69 in Le.
  split.
  - intros H. injection H as Hd Hr Hx He.
    repeat split; [apply Ld | apply Lr | apply Lx | apply Le]; assumption.
  - intros (Hd & Hr & Hx & He).
    apply (proj2 Ld) in Hd. apply (proj2 Lr) in Hr.
    apply (proj2 Lx) in Hx. apply (proj2 Le) in He.
    congruence.
Qed.

Lemma endsWith_rxe name : endsWith (toLowerCase name) (js ".rxe") = rxeSuffix name.
Proof.
  unfold endsWith, toLowerCase, rxeSuffix.
  rewrite length_fmap. change (length (js ".rxe")) with 4%nat.
  change (js ".rxe") with [46; 114; 120; 101].
  rewrite <- fmap_drop.
  pose proof (length_drop name (length name - 4)) as Hlen.
  destruct (Nat.leb_spec 4 (length name)) as [H4|H4].
  - destruct (drop (length name - 4) name) as [|d [|r [|x [|e [|? ?]]]]];
      cbn [length] in Hlen; try lia.
    cbn [andb fmap list_fmap].
    apply eq_true_iff_eq.
    rewrite bool_decide_eq_true, rxe_units.
    rewrite !andb_true_iff, !orb_true_iff, !Z.eqb_eq. tauto.
  - cbn [andb].
    destruct (drop (length name - 4) name) as [|d [|r [|x [|e [|? ?]]]]];
      cbn [length] in Hlen; try reflexivity; lia.
Qed.

Lemma every_prefix n : every matchesHeader 0 (take n expectedHeader) = true.
Proof. do 14 (destruct n as [|n]; [reflexivity|]). reflexivity. Qed.

Lemma every_iff_prefix (header : Uint8Array) :
  every matchesHeader 0 header = bool_decide (header `prefix_of` expectedHeader).
Proof.
  apply eq_true_iff_eq. rewrite bool_decide_eq_true. split.
  - intros Hevery. pose proof (every_matches _ _ Hevery) as Hall.
    exists (drop (length header) expectedHeader).
    rewrite <- (take_drop (length header) expectedHeader) at 1. f_equal.
    apply list_eq. intros k.
    destruct (header !! k) as [value|] eqn:Hk.
    + rewrite lookup_take_lt by (apply lookup_lt_Some in Hk; lia).
      transitivity (Some value); [exact (Hall k value Hk) | symmetry; exact Hk].
    + transitivity (@None Z); [|symmetry; exact Hk].
      apply lookup_ge_None in Hk. now rewrite lookup_take_ge by lia.
  - intros [rest Hrest].
    assert (header = take (length header) expectedHeader) as ->
      by (rewrite Hrest; now rewrite take_app_length).
    apply every_prefix.
Qed.

(** X20: a file that has its 13 first bytes, and not the expected ones, is
    turned down whatever the session, and the session is left as it was:
    nothing is sent. The error is the invalid extension when the name does
    not end in [.rxe], and the invalid format when it does. *)
Theorem uploadProgram_rejects_wrong_magic file nxt :
  (13 <= length (File.content file))%nat ->
  take 13 (File.content file) <> expectedHeader ->
  uploadProgram (Some file) nxt
  = (Throw (if rxeSuffix (File.name file) then InvalidFormat else InvalidExtension), nxt).
Proof.
  intros Hlen Hbad. unfold uploadProgram. rewrite endsWith_rxe.
  destruct (rxeSuffix (File.name file)); [|reflexivity].
  cbn [negb]. change (every _ 0) with (every matchesHeader 0).
  rewrite every_iff_prefix.
  change (slice (File.content file) 0 (length expectedHeader))
    with (take 13 (File.content file)).
  rewrite bool_decide_eq_false_2; [reflexivity|].
  intros [rest Hrest]. apply Hbad.
  assert (length rest = 0%nat) as Hnil.
  { apply (f_equal length) in Hrest.
    rewrite length_app, length_take in Hrest. cbn [length expectedHeader] in Hrest. lia. }
  destruct rest; [|discriminate Hnil].
  now rewrite app_nil_r in Hrest.
Qed.

Lemma uploadProgram_rejects_wrong_magic_witness :
  uploadProgram (Some (File.mk (js "prog.rxe") (replicate 16 0x4d))) (connected [] [])
  = (Throw (if rxeSuffix (js "prog.rxe") then InvalidFormat else InvalidExtension),
     connected [] []).
Proof.
  apply (uploadProgram_rejects_wrong_magic (File.mk (js "prog.rxe") (replicate 16 0x4d))).
  - vm_compute. lia.
  - vm_compute. discriminate.
Defined.

Lemma tryCatch_rethrow {A} (m : M A) nxt : tryCatch m (fun error => throw error) nxt = m nxt.
Proof. unfold tryCatch. destruct (m nxt) as [[a|e|] nxt']; reflexivity. Qed.

(** X21: what [uploadProgram] decides, and in which order. A name that does
    not end in [.rxe] (letter case aside; a name of fewer than four units
    does not) is turned down first, as an invalid extension. Then the file is
    turned down as an invalid format unless the bytes it has among its first
    13 are the first bytes of the expected header. In both cases the session
    is left as it was. Every other file is handed to [uploadFile] with the
    stop flag set, and the outcome of that call is the outcome of
    [uploadProgram]. *)
Theorem uploadProgram_decides file nxt :
  uploadProgram (Some file) nxt
  = if negb (rxeSuffix (File.name file)) then (Throw InvalidExtension, nxt)
    else if negb (bool_decide (take 13 (File.content file) `prefix_of` expectedHeader))
         then (Throw InvalidFormat, nxt)
         else uploadFile (Some file) true nxt.
Proof.
  unfold uploadProgram. rewrite endsWith_rxe.
  destruct (negb (rxeSuffix (File.name file))); [reflexivity|].
  change (every _ 0) with (every matchesHeader 0).
  rewrite every_iff_prefix.
  change (slice (File.content file) 0 (length expectedHeader))
    with (take 13 (File.content file)).
  destruct (negb (bool_decide _)); [reflexivity|].
  apply tryCatch_rethrow.
Qed.

(** ** The page script *)

Section Page.
Context {Console : Type} (printToConsole : option Printed -> Console -> Console).

(** X22: the stop button. On a connected session whose connection check is
    answered, the handler prints "Program stopped" when the stop answer has
    status 0 and "No program running" when it has status 236, and resolves;
    on any other status it prints nothing and rejects with the error of
    [stopProgram]. *)
Theorem stop_button_reports console sent probeR stopR answers :
  btnStopProgram_click printToConsole console
    (connected sent (Data probeR :: Data stopR :: answers))
  = let brick' := connected (sent ++ [probe; stopCmd]) answers in
    if negb (strictNeq0 (stopR !! 2%nat)) then
      (Ret tt,
       (printToConsole None (printToConsole (Some (Say (js "Program stopped"))) console),
        brick'))
    else if looseNeq (stopR !! 2%nat) 236 then
      (Throw (StopFailed (stopR !! 2%nat)), (console, brick'))
    else
      (Ret tt,
       (printToConsole None (printToConsole (Some (Say (js "No program running"))) console),
        brick')).
Proof.
  unfold btnStopProgram_click. rewrite stopProgram_connected.
  destruct (strictNeq0 (stopR !! 2%nat)); reflexivity.
Qed.

(** X23: the delete button. With a file name that is not empty, whatever
    the session and whatever error [deleteFile] throws (no connection, a
    name too long for the field, any device status), the handler prints
    "File not found." and resolves: the test of its [catch] block is an
    assignment, so the branch that would print and rethrow the error is
    never taken. With an empty file name the handler prints a hint and does
    not touch the session. *)
Theorem delete_button_never_rejects fileName console brick :
  (forall e, fst (btnDeleteFile_click printToConsole fileName console brick) <> Throw e)
  /\ (forall e brick', fileName <> [] -> deleteFile fileName brick = (Throw e, brick') ->
        btnDeleteFile_click printToConsole fileName console brick
        = (Ret tt,
           (printToConsole None (printToConsole (Some (Say (js "File not found."))) console),
            brick')))
  /\ (fileName = [] ->
        snd (snd (btnDeleteFile_click printToConsole fileName console brick)) = brick).
Proof.
  split; [|split].
  - intros e. unfold btnDeleteFile_click.
    destruct fileName as [|c fileName]; [discriminate|].
    destruct (deleteFile _ brick) as [[[]| |] brick']; discriminate.
  - intros e brick' Hname Hdel. unfold btnDeleteFile_click.
    destruct fileName as [|c fileName]; [congruence|].
    now rewrite Hdel.
  - intros ->. reflexivity.
Qed.

End Page.

Lemma delete_button_never_rejects_witness :
  btnDeleteFile_click (fun printed console => console ++ [printed]) (js "prog.rxe") []
    (connected [] [Data [0x02; 0x88; 0x00]; Data [0x02; 0x85; 0x8B]])
  = (Ret tt,
     ([] ++ [Some (Say (js "File not found."))] ++ [None],
      connected [probe; deleteCmd (js "prog.rxe")] [])).
Proof.
  rewrite (proj1 (proj2 (delete_button_never_rejects
             (fun printed console => console ++ [printed]) (js "prog.rxe") []
             (connected [] [Data [0x02; 0x88; 0x00]; Data [0x02; 0x85; 0x8B]])))
             (DeleteFailed (Some 0x8B)) (connected [probe; deleteCmd (js "prog.rxe")] [])).
  - reflexivity.
  - discriminate.
  - reflexivity.
Defined.
